(** * The generation-status monitor of the results page

    A shallow embedding of the [ResultsPage] component: the polling effect
    ([fetchStatus], started once on mount and then by an interval timer of
    5001 ms), the stop handler ([handleStopGeneration]) and the parts of the
    render function that decide which buttons can be pressed.

    JavaScript runs one task at a time; an [async] function runs until its
    next [await] and is resumed when the awaited promise settles.  The
    embedding is therefore a labelled transition system: one [Event] is one
    task of the event loop (a timer tick, a click, or the settlement of one
    outstanding network call), and [step] runs the code of that task up to
    the next [await].  Nothing bounds how long a network call takes, so the
    events may arrive in any order.

    Numbers: the progress value is computed by the source in double
    precision; here it is an exact rational ([Q]).  The poll counter is a
    natural number.  The model covers one mount of the component for a
    fixed job id.

    The second part embeds what the page depends on for its session: the
    authentication context ([AuthContext.js]: the two storage areas,
    [persistAuth], [login], [logout]), the route guard ([PrivateRoute]) and
    the login page ([LoginPage.js]: [redirectPath], [handleSubmit]). *)

From Stdlib Require Import ZArith QArith Qminmax Qround Lia.
From Stdlib Require Import Ascii DecimalString DecimalPos DecimalN.
From stdpp Require Import base strings list gmap.

(** ** JavaScript values *)

(** An error object; the code only reads [err.message]. *)
Record JsError := { message : option string }.

(** A settled promise. *)
Inductive Settled (A : Type) :=
| Fulfilled (v : A)
| Rejected (e : JsError).
Arguments Fulfilled {A} v.
Arguments Rejected {A} e.

(** Truthiness of a string-or-absent field: present and not empty. *)
Definition truthy (o : option string) : bool :=
  match o with
  | Some x => negb (String.eqb x "")
  | None => false
  end.

(** [o || d] on a string-or-absent field. *)
Definition orElse (o : option string) (d : string) : string :=
  match o with
  | Some x => if String.eqb x "" then d else x
  | None => d
  end.

(** [`${o}`] inside a template literal. *)
Definition interpolate (o : option string) : string :=
  match o with
  | Some x => x
  | None => "undefined"
  end.

(** [Math.round] on a rational: the nearest integer, ties upwards. *)
Definition Math_round (q : Q) : Z := Qfloor (q + (1 # 2)).

(** Truthiness of a number-or-absent field: present and not zero. *)
Definition truthyNum (o : option Q) : bool :=
  match o with
  | Some q => negb (Qeq_bool q 0)
  | None => false
  end.

(** ** Payloads of the remote service *)

(** The body of [getGenerationStatus(id)]. *)
Record StatusData := {
  sd_status : string;
  sd_elapsedTime : option Q;
  sd_model : option string;
  sd_searchEngine : option string;
  sd_prompt : option string;
  sd_error : option string
}.

(** The body of [getGenerationResult(id)]. *)
Record ResultData := {
  rd_result : option string;
  rd_model : option string;
  rd_searchEngine : option string;
  rd_prompt : option string
}.

(** [resultData && resultData.result]: the result when it is usable. *)
Definition usableResult (r : option ResultData) : option string :=
  match r with
  | Some rd => if truthy (rd_result rd) then rd_result rd else None
  | None => None
  end.

(** The four functions imported from [../utils/api]. *)
Inductive Call := reloadTasks | getGenerationStatus | getGenerationResult | stopTask.

Global Instance Call_eq_dec : EqDecision Call.
Proof. solve_decision. Defined.

(** ** Suspended activations

    Every run of [fetchStatus] and every run of [handleStopGeneration] is an
    activation.  It is suspended at one of the [await]s (or on the promise
    of [stopTask]) until that call settles, or it has returned. *)
Inductive Activation :=
| AwaitReload                          (* line 72 *)
| AwaitStatus                          (* line 79 *)
| AwaitResult                          (* line 106 *)
| AwaitDirectResult (err : JsError)    (* line 149, inside [catch (err)] *)
| AwaitStop                            (* line 228 *)
| Returned.

Definition outstanding (a : Activation) : bool :=
  match a with
  | Returned => false
  | _ => true
  end.

(** ** The state of one mounted component *)

Record Session := {
  (* React state *)
  result : option string;
  loading : bool;
  error : string;
  generationStatus : string;
  progress : Q;
  elapsedTime : Z;
  stopConfirmOpen : bool;
  stopInProgress : bool;
  generationDetails : gmap string string;
  (* variables of the polling effect's closure *)
  pollCount : nat;
  pollInterval : bool;                 (* the interval timer is armed *)
  (* the event loop *)
  activations : list Activation;
  calls : list Call                    (* network calls issued so far *)
}.

Definition setResult (v : option string) (s : Session) : Session :=
  {| result := v; loading := loading s; error := error s;
     generationStatus := generationStatus s; progress := progress s;
     elapsedTime := elapsedTime s; stopConfirmOpen := stopConfirmOpen s;
     stopInProgress := stopInProgress s;
     generationDetails := generationDetails s; pollCount := pollCount s;
     pollInterval := pollInterval s; activations := activations s;
     calls := calls s |}.

Definition setLoading (v : bool) (s : Session) : Session :=
  {| result := result s; loading := v; error := error s;
     generationStatus := generationStatus s; progress := progress s;
     elapsedTime := elapsedTime s; stopConfirmOpen := stopConfirmOpen s;
     stopInProgress := stopInProgress s;
     generationDetails := generationDetails s; pollCount := pollCount s;
     pollInterval := pollInterval s; activations := activations s;
     calls := calls s |}.

Definition setError (v : string) (s : Session) : Session :=
  {| result := result s; loading := loading s; error := v;
     generationStatus := generationStatus s; progress := progress s;
     elapsedTime := elapsedTime s; stopConfirmOpen := stopConfirmOpen s;
     stopInProgress := stopInProgress s;
     generationDetails := generationDetails s; pollCount := pollCount s;
     pollInterval := pollInterval s; activations := activations s;
     calls := calls s |}.

Definition setGenerationStatus (v : string) (s : Session) : Session :=
  {| result := result s; loading := loading s; error := error s;
     generationStatus := v; progress := progress s;
     elapsedTime := elapsedTime s; stopConfirmOpen := stopConfirmOpen s;
     stopInProgress := stopInProgress s;
     generationDetails := generationDetails s; pollCount := pollCount s;
     pollInterval := pollInterval s; activations := activations s;
     calls := calls s |}.

Definition setProgress (v : Q) (s : Session) : Session :=
  {| result := result s; loading := loading s; error := error s;
     generationStatus := generationStatus s; progress := v;
     elapsedTime := elapsedTime s; stopConfirmOpen := stopConfirmOpen s;
     stopInProgress := stopInProgress s;
     generationDetails := generationDetails s; pollCount := pollCount s;
     pollInterval := pollInterval s; activations := activations s;
     calls := calls s |}.

Definition setElapsedTime (v : Z) (s : Session) : Session :=
  {| result := result s; loading := loading s; error := error s;
     generationStatus := generationStatus s; progress := progress s;
     elapsedTime := v; stopConfirmOpen := stopConfirmOpen s;
     stopInProgress := stopInProgress s;
     generationDetails := generationDetails s; pollCount := pollCount s;
     pollInterval := pollInterval s; activations := activations s;
     calls := calls s |}.

Definition setStopConfirmOpen (v : bool) (s : Session) : Session :=
  {| result := result s; loading := loading s; error := error s;
     generationStatus := generationStatus s; progress := progress s;
     elapsedTime := elapsedTime s; stopConfirmOpen := v;
     stopInProgress := stopInProgress s;
     generationDetails := generationDetails s; pollCount := pollCount s;
     pollInterval := pollInterval s; activations := activations s;
     calls := calls s |}.

Definition setStopInProgress (v : bool) (s : Session) : Session :=
  {| result := result s; loading := loading s; error := error s;
     generationStatus := generationStatus s; progress := progress s;
     elapsedTime := elapsedTime s; stopConfirmOpen := stopConfirmOpen s;
     stopInProgress := v;
     generationDetails := generationDetails s; pollCount := pollCount s;
     pollInterval := pollInterval s; activations := activations s;
     calls := calls s |}.

(** [setGenerationDetails(prev => f prev)] *)
Definition setGenerationDetails (f : gmap string string → gmap string string)
    (s : Session) : Session :=
  {| result := result s; loading := loading s; error := error s;
     generationStatus := generationStatus s; progress := progress s;
     elapsedTime := elapsedTime s; stopConfirmOpen := stopConfirmOpen s;
     stopInProgress := stopInProgress s;
     generationDetails := f (generationDetails s); pollCount := pollCount s;
     pollInterval := pollInterval s; activations := activations s;
     calls := calls s |}.

Definition setPollCount (v : nat) (s : Session) : Session :=
  {| result := result s; loading := loading s; error := error s;
     generationStatus := generationStatus s; progress := progress s;
     elapsedTime := elapsedTime s; stopConfirmOpen := stopConfirmOpen s;
     stopInProgress := stopInProgress s;
     generationDetails := generationDetails s; pollCount := v;
     pollInterval := pollInterval s; activations := activations s;
     calls := calls s |}.

Definition setPollInterval (v : bool) (s : Session) : Session :=
  {| result := result s; loading := loading s; error := error s;
     generationStatus := generationStatus s; progress := progress s;
     elapsedTime := elapsedTime s; stopConfirmOpen := stopConfirmOpen s;
     stopInProgress := stopInProgress s;
     generationDetails := generationDetails s; pollCount := pollCount s;
     pollInterval := v; activations := activations s;
     calls := calls s |}.

Definition setActivations (v : list Activation) (s : Session) : Session :=
  {| result := result s; loading := loading s; error := error s;
     generationStatus := generationStatus s; progress := progress s;
     elapsedTime := elapsedTime s; stopConfirmOpen := stopConfirmOpen s;
     stopInProgress := stopInProgress s;
     generationDetails := generationDetails s; pollCount := pollCount s;
     pollInterval := pollInterval s; activations := v;
     calls := calls s |}.

Definition setCalls (v : list Call) (s : Session) : Session :=
  {| result := result s; loading := loading s; error := error s;
     generationStatus := generationStatus s; progress := progress s;
     elapsedTime := elapsedTime s; stopConfirmOpen := stopConfirmOpen s;
     stopInProgress := stopInProgress s;
     generationDetails := generationDetails s; pollCount := pollCount s;
     pollInterval := pollInterval s; activations := activations s;
     calls := v |}.

(** [clearInterval(pollInterval)] and [setInterval(fetchStatus, 5001)]. *)
Definition clearInterval (s : Session) : Session := setPollInterval false s.
Definition setInterval (s : Session) : Session := setPollInterval true s.

(** Issue a network call. *)
Definition call (c : Call) (s : Session) : Session :=
  setCalls (calls s ++ [c]) s.

(** A new activation is suspended at [a]. *)
Definition spawn (a : Activation) (s : Session) : Session :=
  setActivations (activations s ++ [a]) s.

(** Activation [i] is suspended again at [a]. *)
Definition suspend (i : nat) (a : Activation) (s : Session) : Session :=
  setActivations (<[i := a]> (activations s)) s.

(** Activation [i] runs to its end. *)
Definition finish (i : nat) (s : Session) : Session := suspend i Returned s.

(** ** The progress estimate (line 138)

    [Math.min(10 + 80 * (pollCount / 60), 90)] *)
Definition simulatedProgress (pollCount : nat) : Q :=
  Qmin (10 + 80 * (inject_Z (Z.of_nat pollCount) / 60)) 90.

(** ** Merging descriptive fields into [generationDetails]

    The same three [if]s follow the status payload (lines 88-99), the result
    payload of a completed job (lines 110-121) and the result payload of the
    direct fetch (lines 155-166). *)

(** [if (x.model && x.model !== 'unknown') setGenerationDetails(prev => ({ ...prev, model: x.model }))] *)
Definition updateModel (model : option string)
    (prev : gmap string string) : gmap string string :=
  match model with
  | Some m =>
      if negb (String.eqb m "") && negb (String.eqb m "unknown")
      then <["model" := m]> prev
      else prev
  | None => prev
  end.

(** [if (x.key) setGenerationDetails(prev => ({ ...prev, key: x.key }))] *)
Definition updateField (key : string) (v : option string)
    (prev : gmap string string) : gmap string string :=
  match v with
  | Some x => if negb (String.eqb x "") then <[key := x]> prev else prev
  | None => prev
  end.

Definition updateDetails (model searchEngine prompt : option string)
    (s : Session) : Session :=
  setGenerationDetails (updateField "prompt" prompt)
    (setGenerationDetails (updateField "searchEngine" searchEngine)
      (setGenerationDetails (updateModel model) s)).

(** ** [fetchStatus] (lines 65-181) *)

(** From the entry of [fetchStatus] to its first [await] (lines 66-79). *)
Definition fetchStatus (s : Session) : Session :=
  let s := setLoading true s in
  if Nat.eqb (pollCount s) 0
  then spawn AwaitReload (call reloadTasks s)
  else spawn AwaitStatus (call getGenerationStatus s).

(** After [reloadTasks] settled, fulfilled or rejected (lines 72-79). *)
Definition afterReload (i : nat) (s : Session) : Session :=
  suspend i AwaitStatus (call getGenerationStatus s).

(** The end of the [catch (err)] block (lines 177-179). *)
Definition reportPollError (i : nat) (err : JsError) (s : Session) : Session :=
  finish i
    (setLoading false
      (clearInterval
        (setError
           ("Error checking generation status: " +:+
              orElse (message err) "Unknown error") s))).

(** The [catch (err)] block up to its [await] (lines 142-149). *)
Definition catchBlock (i : nat) (err : JsError) (s : Session) : Session :=
  if Nat.eqb (pollCount s) 0
  then suspend i (AwaitDirectResult err) (call getGenerationResult s)
  else reportPollError i err s.

(** The fields of the status payload are taken over (lines 82-99). *)
Definition noteStatus (sd : StatusData) (s : Session) : Session :=
  let s := setGenerationStatus (sd_status sd) s in
  let s :=
    match sd_elapsedTime sd with
    | Some t =>
        if truthyNum (Some t) then setElapsedTime (Math_round t) s else s
    | None => s
    end in
  updateDetails (sd_model sd) (sd_searchEngine sd) (sd_prompt sd) s.

(** The status payload arrived (lines 81-141). *)
Definition afterStatus (i : nat) (statusData : option StatusData)
    (s : Session) : Session :=
  match statusData with
  | None => finish i s
  | Some sd =>
      let s := noteStatus sd s in
      if String.eqb (sd_status sd) "completed" then
        suspend i AwaitResult (call getGenerationResult (setProgress 100 s))
      else if String.eqb (sd_status sd) "error" then
        finish i
          (setLoading false
            (clearInterval
              (setError
                 (orElse (sd_error sd) "An error occurred during generation") s)))
      else if String.eqb (sd_status sd) "stopped" then
        finish i
          (setLoading false
            (clearInterval
              (setError "Task has been stopped by user request." s)))
      else
        let s := setPollCount (S (pollCount s)) s in
        finish i (setProgress (simulatedProgress (pollCount s)) s)
  end.

(** The result payload of a job reported completed arrived (lines 107-125). *)
Definition afterResult (i : nat) (resultData : option ResultData)
    (s : Session) : Session :=
  match resultData, usableResult resultData with
  | Some rd, Some r =>
      let s := setResult (Some r) s in
      let s := updateDetails (rd_model rd) (rd_searchEngine rd) (rd_prompt rd) s in
      finish i (setLoading false (clearInterval s))
  | _, _ => finish i s
  end.

(** The result payload of the direct fetch arrived (lines 150-171); [err] is
    the error the [catch] block was entered with. *)
Definition afterDirectResult (i : nat) (err : JsError)
    (resultData : option ResultData) (s : Session) : Session :=
  match resultData, usableResult resultData with
  | Some rd, Some r =>
      let s := setResult (Some r) s in
      let s := setGenerationStatus "completed" s in
      let s := setProgress 100 s in
      let s := updateDetails (rd_model rd) (rd_searchEngine rd) (rd_prompt rd) s in
      finish i (setLoading false (clearInterval s))
  | _, _ => reportPollError i err s
  end.

(** ** [handleStopGeneration] (lines 226-240) *)

Definition handleStopGeneration (s : Session) : Session :=
  spawn AwaitStop (call stopTask (setStopInProgress true s)).

(** [.then(...)] followed by [.finally(...)] *)
Definition afterStopFulfilled (i : nat) (s : Session) : Session :=
  let s := setGenerationStatus "stopped" s in
  let s := setError "Task has been stopped by user request." s in
  finish i (setStopInProgress false (setStopConfirmOpen false s)).

(** [.catch(err => ...)] followed by [.finally(...)] *)
Definition afterStopRejected (i : nat) (err : JsError) (s : Session) : Session :=
  let s := setError ("Failed to stop task: " +:+ interpolate (message err)) s in
  finish i (setStopInProgress false (setStopConfirmOpen false s)).

(** ** The render function, as far as it enables events (lines 242-343)

    The progress view, with the stop button and the confirmation dialog, is
    rendered when [loading && generationStatus !== 'completed']. *)
Definition progressView (s : Session) : bool :=
  loading s && negb (String.eqb (generationStatus s) "completed").

(** The dialog is [open={stopConfirmOpen}]; [onClose] is called from the
    open dialog. *)
Definition dialogShown (s : Session) : bool :=
  progressView s && stopConfirmOpen s.

(** The dialog element is part of the progress page.  Its content, and with
    it the two buttons, is in the document while the dialog is open and,
    after [stopConfirmOpen] has become false, until the exit transition of
    the dialog has ended.  When that transition ends is no part of the
    component's state, so the model lets the buttons be pressed whenever
    the progress page is rendered: this admits every press the page admits
    (and presses on a dialog that is already gone, which the page does not
    admit). *)
Definition dialogMounted (s : Session) : bool := progressView s.

(** The two buttons are [disabled={stopInProgress}]. *)
Definition dialogButtonsEnabled (s : Session) : bool :=
  dialogMounted s && negb (stopInProgress s).

(** ** Events and the transition function *)

Inductive Reply :=
| ReloadReply (r : Settled unit)
| StatusReply (r : Settled (option StatusData))
| ResultReply (r : Settled (option ResultData))
| StopReply (r : Settled unit).

Inductive Event :=
| Tick                              (* the interval timer fires *)
| Settle (i : nat) (r : Reply)      (* the call activation [i] waits for settles *)
| ClickStopGeneration               (* line 327 *)
| ClickCancel                       (* line 261 *)
| CloseDialog                       (* line 248: backdrop or Escape *)
| ClickConfirmStop.                 (* line 265 *)

Definition settle (i : nat) (r : Reply) (s : Session) : Session :=
  match activations s !! i, r with
  | Some AwaitReload, ReloadReply _ => afterReload i s
  | Some AwaitStatus, StatusReply (Fulfilled statusData) => afterStatus i statusData s
  | Some AwaitStatus, StatusReply (Rejected err) => catchBlock i err s
  | Some AwaitResult, ResultReply (Fulfilled resultData) => afterResult i resultData s
  | Some AwaitResult, ResultReply (Rejected err) => catchBlock i err s
  | Some (AwaitDirectResult err), ResultReply (Fulfilled resultData) =>
      afterDirectResult i err resultData s
  | Some (AwaitDirectResult err), ResultReply (Rejected _) => reportPollError i err s
  | Some AwaitStop, StopReply (Fulfilled _) => afterStopFulfilled i s
  | Some AwaitStop, StopReply (Rejected err) => afterStopRejected i err s
  | _, _ => s
  end.

Definition step (s : Session) (e : Event) : Session :=
  match e with
  | Tick => if pollInterval s then fetchStatus s else s
  | Settle i r => settle i r s
  | ClickStopGeneration =>
      if progressView s then setStopConfirmOpen true s else s
  | ClickCancel =>
      if dialogButtonsEnabled s then setStopConfirmOpen false s else s
  | CloseDialog =>
      if dialogShown s then setStopConfirmOpen false s else s
  | ClickConfirmStop =>
      if dialogButtonsEnabled s then handleStopGeneration s else s
  end.

Definition run (s : Session) (es : list Event) : Session := fold_left step es s.

(** ** Mounting the component (lines 40-58 and 183-187) *)

Definition defaultGenerationDetails : gmap string string :=
  <["prompt" := "Loading prompt..."]>
    (<["model" := "Loading model..."]>
      (<["type" := "unknown"]> (<["status" := "unknown"]> ∅))).

Definition initialState (locationState : option (gmap string string)) : Session :=
  {| result := None; loading := true; error := "";
     generationStatus := "generating"; progress := 0; elapsedTime := 0;
     stopConfirmOpen := false; stopInProgress := false;
     generationDetails := from_option id defaultGenerationDetails locationState;
     pollCount := 0; pollInterval := false; activations := []; calls := [] |}.

(** The effect body: [fetchStatus(); pollInterval = setInterval(...)]. *)
Definition mount (locationState : option (gmap string string)) : Session :=
  setInterval (fetchStatus (initialState locationState)).

(** The states a mounted component can be in. *)
Definition reachable (s : Session) : Prop :=
  ∃ locationState es, s = run (mount locationState) es.

(** ** Observations *)

(** How many activations satisfy [p]. *)
Definition countIf (p : Activation → bool) (l : list Activation) : nat :=
  length (List.filter p l).

(** Network calls not yet settled. *)
Definition outstandingCalls (s : Session) : nat :=
  countIf outstanding (activations s).

Definition isStop (a : Activation) : bool :=
  match a with
  | AwaitStop => true
  | _ => false
  end.


(** [stopTask] calls issued so far. *)
Definition stopCalls (s : Session) : nat :=
  count_occ Call_eq_dec (calls s) stopTask.

(** The three statuses after which the service reports nothing new. *)
Definition terminalStatus (st : string) : bool :=
  String.eqb st "completed" || String.eqb st "error" || String.eqb st "stopped".

(** The descriptive fields [(model, searchEngine, prompt)] of the payload an
    event delivers, if it delivers one. *)
Definition payloadFields (e : Event)
    : option (option string * option string * option string) :=
  match e with
  | Settle _ (StatusReply (Fulfilled (Some sd))) =>
      Some (sd_model sd, sd_searchEngine sd, sd_prompt sd)
  | Settle _ (ResultReply (Fulfilled (Some rd))) =>
      Some (rd_model rd, rd_searchEngine rd, rd_prompt rd)
  | _ => None
  end.

Definition payloadModel (e : Event) : option string :=
  match payloadFields e with
  | Some (m, _, _) => m
  | None => None
  end.

Definition payloadSearchEngine (e : Event) : option string :=
  match payloadFields e with
  | Some (_, v, _) => v
  | None => None
  end.

Definition payloadPrompt (e : Event) : option string :=
  match payloadFields e with
  | Some (_, _, v) => v
  | None => None
  end.

(** The same event with the [model] field of its payload replaced. *)
Definition withModel (m : option string) (e : Event) : Event :=
  match e with
  | Settle i (StatusReply (Fulfilled (Some sd))) =>
      Settle i (StatusReply (Fulfilled (Some
        {| sd_status := sd_status sd; sd_elapsedTime := sd_elapsedTime sd;
           sd_model := m; sd_searchEngine := sd_searchEngine sd;
           sd_prompt := sd_prompt sd; sd_error := sd_error sd |})))
  | Settle i (ResultReply (Fulfilled (Some rd))) =>
      Settle i (ResultReply (Fulfilled (Some
        {| rd_result := rd_result rd; rd_model := m;
           rd_searchEngine := rd_searchEngine rd; rd_prompt := rd_prompt rd |})))
  | _ => e
  end.


(** While the status shown is none of 'completed', 'error', 'stopped', the
    progress shown is at most 90. *)
Definition progressInv (s : Session) : Prop :=
  terminalStatus (generationStatus s) = true ∨ (progress s <= 90)%Q.

(** When loading has ended the timer is cleared and there is an error
    message or a result to show; a stored result means loading has ended. *)
Definition pollEndInv (s : Session) : Prop :=
  (loading s = false →
     pollInterval s = false ∧ (error s ≠ "" ∨ is_Some (result s)))
  ∧ (is_Some (result s) → loading s = false).

(** A stored result is never the empty string. *)
Definition resultInv (s : Session) : Prop :=
  ∀ r, result s = Some r → r ≠ "".

(** The progress shown is between 0 and 100. *)
Definition progressRange (s : Session) : Prop :=
  (0 <= progress s)%Q ∧ (progress s <= 100)%Q.

(** ** What the page shows (lines 242-461)

    The render function returns the progress page while
    [loading && generationStatus !== 'completed'], else the error alert when
    [error] is not empty, else the result page. *)
Inductive View :=
| ProgressPage
| ErrorPage (shown : string)
| ResultPage.

Definition view (s : Session) : View :=
  if progressView s then ProgressPage
  else if negb (String.eqb (error s) "") then ErrorPage (error s)
  else ResultPage.

(** [String(n)] for a whole number [0 <= n < 2^53]: all its digits. *)
Definition String_of_N (n : N) : string :=
  NilZero.string_of_uint (N.to_uint n).

(** [s.padStart(targetLength, c)] for a one-character pad string. *)
Definition padStart (targetLength : nat) (c : Ascii.ascii) (s : string) : string :=
  String.string_of_list_ascii (replicate (targetLength - String.length s) c) +:+ s.

(** The text after the percentage (lines 317-319):
    [elapsedTime > 0 ? `· ${Math.floor(elapsedTime / 60)}:${String(elapsedTime % 60).padStart(2, '0')} elapsed` : ''];
    [middleDot] is the two bytes of the character before the first space.

    The source computes on doubles.  For a whole number [t < 2^53] the
    remainder [t % 60] is exact, and so is [Math.floor(t / 60)]: the
    quotient is below [2^48], where a double is at most [2^-6] away from
    the number it rounds, less than the [1/60] that separates [t / 60] from
    the next whole number.  Above [2^53] the source rounds and the
    definitions below, which divide exactly, are not what it computes. *)
Definition middleDot : string :=
  String (Ascii.ascii_of_nat 194) (String (Ascii.ascii_of_nat 183) EmptyString).

Definition elapsedMinutes (t : Z) : string := String_of_N (Z.to_N (t / 60)).

Definition elapsedSeconds (t : Z) : string :=
  padStart 2 "0"%char (String_of_N (Z.to_N (t mod 60))).

Definition elapsedLabel (t : Z) : string :=
  if Z.ltb 0 t
  then middleDot +:+ " " +:+ elapsedMinutes t +:+ ":" +:+ elapsedSeconds t
         +:+ " elapsed"
  else "".

(** Reading a string of digits back as a number. *)
Definition N_of_String (s : string) : option N :=
  option_map N.of_uint (NilZero.uint_of_string s).

(** ** Sessions used as examples *)

(** The body of a status reply that carries nothing but the status. *)
Definition statusOnly (st : string) : StatusData :=
  {| sd_status := st; sd_elapsedTime := None; sd_model := None;
     sd_searchEngine := None; sd_prompt := None; sd_error := None |}.

(** The body of a result reply that carries nothing but the result. *)
Definition resultOnly (r : option string) : ResultData :=
  {| rd_result := r; rd_model := None; rd_searchEngine := None;
     rd_prompt := None |}.

(** The first poll of a session waits for its status. *)
Definition firstPollWaiting : Session :=
  run (mount None) [Settle 0 (ReloadReply (Fulfilled tt))].

(** One poll has reported 'generating'; the second poll is waiting for its
    status. *)
Definition secondPollWaiting : Session :=
  run (mount None)
    [Settle 0 (ReloadReply (Fulfilled tt));
     Settle 0 (StatusReply (Fulfilled (Some (statusOnly "generating"))));
     Tick].

(** A poll is waiting for its status while the user confirms the stop. *)
Definition pollThenStop : Session :=
  run (mount None)
    [Settle 0 (ReloadReply (Fulfilled tt)); ClickStopGeneration; ClickConfirmStop].

(** A first poll reported 'generating' and the user's stop has succeeded. *)
Definition stoppedByUser : Session :=
  run (mount None)
    [Settle 0 (ReloadReply (Fulfilled tt));
     Settle 0 (StatusReply (Fulfilled (Some (statusOnly "generating"))));
     ClickStopGeneration; ClickConfirmStop;
     Settle 1 (StopReply (Fulfilled tt))].

(** Two polls overlap and the first of them is told that the job failed. *)
Definition errorWithPollUnderWay : Session :=
  run (mount None)
    [Tick;
     Settle 0 (ReloadReply (Fulfilled tt));
     Settle 1 (ReloadReply (Fulfilled tt));
     Settle 0 (StatusReply (Fulfilled (Some (statusOnly "error"))))].

(** The first poll found the job completed but no result; the second poll
    is waiting for its status. *)
Definition secondPollAfterEmptyResult : Session :=
  run (mount None)
    [Settle 0 (ReloadReply (Fulfilled tt));
     Settle 0 (StatusReply (Fulfilled (Some (statusOnly "completed"))));
     Settle 0 (ResultReply (Fulfilled (Some (resultOnly None))));
     Tick;
     Settle 1 (ReloadReply (Fulfilled tt))].

(** A stop request fails during the first poll, which then finds the job
    completed and fetches a usable result. *)
Definition stopFailedThenCompleted : list Event :=
  [Settle 0 (ReloadReply (Fulfilled tt));
   ClickStopGeneration; ClickConfirmStop;
   Settle 1 (StopReply (Rejected {| message := Some "Network Error" |}));
   Settle 0 (StatusReply (Fulfilled (Some (statusOnly "completed"))));
   Settle 0 (ResultReply (Fulfilled (Some (resultOnly (Some "text")))))].

(** * The authentication context ([AuthContext.js])

    [localStorage] and [sessionStorage] are maps from keys to strings;
    [getItem] gives [null] ([None]) for a key that is not there.  A user is
    any value other than [null] and [undefined] that the login service
    returns; [truthyUser] tells the truthy ones, [stringify] and [parse]
    stand for [JSON.stringify] and [JSON.parse] ([parse] gives [None] when
    it throws and [Some None] for a text that parses to [null]), and
    [normalize] for [s.trim().toLowerCase()]. *)
Module AuthContext.

Inductive Area := LocalStorage | SessionStorage.

Global Instance Area_eq_dec : EqDecision Area.
Proof. solve_decision. Defined.

Record Stores := {
  localStorage : gmap string string;
  sessionStorage : gmap string string
}.

Definition area (a : Area) (st : Stores) : gmap string string :=
  match a with
  | LocalStorage => localStorage st
  | SessionStorage => sessionStorage st
  end.

Definition getItem (a : Area) (key : string) (st : Stores) : option string :=
  area a st !! key.

Definition setItem (a : Area) (key value : string) (st : Stores) : Stores :=
  match a with
  | LocalStorage =>
      {| localStorage := <[key := value]> (localStorage st);
         sessionStorage := sessionStorage st |}
  | SessionStorage =>
      {| localStorage := localStorage st;
         sessionStorage := <[key := value]> (sessionStorage st) |}
  end.

Definition removeItem (a : Area) (key : string) (st : Stores) : Stores :=
  match a with
  | LocalStorage =>
      {| localStorage := delete key (localStorage st);
         sessionStorage := sessionStorage st |}
  | SessionStorage =>
      {| localStorage := localStorage st;
         sessionStorage := delete key (sessionStorage st) |}
  end.

(** [localStorage.getItem(key) || sessionStorage.getItem(key)] (lines 7-9) *)
Definition getStoredItem (key : string) (st : Stores) : option string :=
  if truthy (getItem LocalStorage key st)
  then getItem LocalStorage key st
  else getItem SessionStorage key st.

(** [remember ? localStorage : sessionStorage] and the other one
    (lines 12-13) *)
Definition primaryStorage (remember : bool) : Area :=
  if remember then LocalStorage else SessionStorage.

Definition secondaryStorage (remember : bool) : Area :=
  if remember then SessionStorage else LocalStorage.

Section WithUser.

Variable User : Type.
Variable truthyUser : User → bool.
Variable stringify : User → string.
Variable parse : string → option (option User).
Variable normalize : string → string.

(** [token && user] *)
Definition bothGiven (token : option string) (user : option User) : bool :=
  truthy token && from_option truthyUser false user.

(** [persistAuth] (lines 11-22) *)
Definition persistAuth (token : option string) (user : option User)
    (remember : bool) (st : Stores) : Stores :=
  let st :=
    match token, user with
    | Some tk, Some u =>
        if bothGiven token user
        then setItem (primaryStorage remember) "authUser" (stringify u)
               (setItem (primaryStorage remember) "authToken" tk st)
        else st
    | _, _ => st
    end in
  removeItem (secondaryStorage remember) "authUser"
    (removeItem (secondaryStorage remember) "authToken" st).

(** The state of the provider and the two storage areas it writes to. *)
Record Auth := {
  token : option string;
  user : option User;
  authLoading : bool;
  stores : Stores
}.

(** The initial state (lines 25-30); [None] when [JSON.parse] throws. *)
Definition initialAuth (st : Stores) : option Auth :=
  let stored := getStoredItem "authUser" st in
  match (if truthy stored then parse (from_option id "" stored) else Some None) with
  | Some u =>
      Some {| token := getStoredItem "authToken" st; user := u;
              authLoading := false; stores := st |}
  | None => None
  end.

(** [isAuthenticated: Boolean(token)] (line 72) *)
Definition isAuthenticated (a : Auth) : bool := truthy (token a).

(** [logout] (lines 32-39), also run on the window event [auth:logout]
    (lines 55-64). *)
Definition logout (a : Auth) : Auth :=
  {| token := None; user := None; authLoading := authLoading a;
     stores :=
       removeItem SessionStorage "authUser"
         (removeItem SessionStorage "authToken"
           (removeItem LocalStorage "authUser"
             (removeItem LocalStorage "authToken" (stores a)))) |}.

(** The body of a successful [loginUser] reply, as far as it is read. *)
Record LoginData := {
  access_token : option string;
  data_user : option User
}.

(** [login] up to its [await] (lines 42-45): the state, and the email and
    password [loginUser] is called with. *)
Definition loginCall (email : option string) (password : string) (a : Auth)
    : Auth * (string * string) :=
  ({| token := token a; user := user a; authLoading := true;
      stores := stores a |},
   (normalize (orElse email ""), password)).

(** [login] after [loginUser] is fulfilled (lines 46-52). *)
Definition loginFulfilled (data : LoginData) (remember : bool) (a : Auth) : Auth :=
  {| token := access_token data; user := data_user data;
     authLoading := false;
     stores := persistAuth (access_token data) (data_user data) remember
                 (stores a) |}.

(** [login] after [loginUser] is rejected: only the [finally] block runs and
    the error goes on to the caller (lines 50-52). *)
Definition loginRejected (a : Auth) : Auth :=
  {| token := token a; user := user a; authLoading := false;
     stores := stores a |}.

End WithUser.

Arguments bothGiven {User} truthyUser token user.
Arguments persistAuth {User} truthyUser stringify token user remember st.
Arguments Build_Auth {User} token user authLoading stores.
Arguments token {User} a.
Arguments user {User} a.
Arguments authLoading {User} a.
Arguments stores {User} a.
Arguments initialAuth {User} parse st.
Arguments isAuthenticated {User} a.
Arguments logout {User} a.
Arguments Build_LoginData {User} access_token data_user.
Arguments access_token {User} l.
Arguments data_user {User} l.
Arguments loginCall {User} normalize email password a.
Arguments loginFulfilled {User} truthyUser stringify data remember a.
Arguments loginRejected {User} a.

End AuthContext.

(** * The route guard ([PrivateRoute], src/unnamed/part_000) *)
Module PrivateRoute.

Record Location := {
  pathname : string;
  search : string;
  hash : string
}.

Inductive Rendered :=
| Spinner
| NavigateToLogin (from : string)   (* [<Navigate to="/login" replace state={{ from }} />] *)
| Children.

(** Lines 7-25. *)
Definition render (isAuthenticated authLoading : bool) (location : Location)
    : Rendered :=
  if authLoading then Spinner
  else if negb isAuthenticated
  then NavigateToLogin (pathname location +:+ search location +:+ hash location)
  else Children.

End PrivateRoute.

(** * The login page ([LoginPage.js]) *)
Module LoginPage.

(** [startsWith('/')] *)
Definition startsWithSlash (s : string) : bool := String.prefix "/" s.

(** [redirectPath] (lines 29-32); [requested] is [location.state?.from]
    when that is a string. *)
Definition redirectPath (requested : option string) : string :=
  match requested with
  | Some p => if startsWithSlash p then p else "/"
  | None => "/"
  end.

Record Form := {
  email : string;
  password : string;
  rememberMe : bool;
  error : string
}.

Definition setError (v : string) (f : Form) : Form :=
  {| email := email f; password := password f; rememberMe := rememberMe f;
     error := v |}.

(** What [handleSubmit] does before it returns or awaits (lines 40-50): the
    form, and the arguments of [login] when it is called. *)
Definition handleSubmit (normalize : string → string) (f : Form)
    : Form * option (string * string * bool) :=
  let f := setError "" f in
  if String.eqb (email f) "" || String.eqb (password f) ""
  then (setError "Please enter both email and password to continue." f, None)
  else (f, Some (normalize (email f), password f, rememberMe f)).

(** [login] was rejected (lines 52-55); [serverError] is
    [err?.response?.data?.error]. *)
Definition loginFailed (serverError : option string) (f : Form) : Form :=
  setError (orElse serverError "Invalid email or password.") f.

End LoginPage.

(** * Properties *)

(** ** Proof tools *)

Ltac unfold_code :=
  unfold step, settle, fetchStatus, afterReload, catchBlock, reportPollError,
    afterStatus, noteStatus, afterResult, afterDirectResult, handleStopGeneration,
    afterStopFulfilled, afterStopRejected, updateDetails, finish, suspend,
    spawn, call, clearInterval, setInterval in *.

Ltac case_if :=
  match goal with
  | |- context [if ?b then _ else _] => destruct b eqn:?
  | |- context [match ?o with Some _ => _ | None => _ end] => destruct o eqn:?
  end.

Ltac case_settle i r s :=
  unfold step, settle;
  destruct (activations s !! i) as [[| | | ? | |]|] eqn:?;
  destruct r as [[[]|?]|[[?|]|?]|[[?|]|?]|[[]|?]].

(** ** The progress estimate *)

Lemma simulatedProgress_le_90 (n : nat) : (simulatedProgress n <= 90)%Q.
Proof. unfold simulatedProgress. apply Q.le_min_r. Qed.

Lemma simulatedProgress_mono (n m : nat) :
  n ≤ m → (simulatedProgress n <= simulatedProgress m)%Q.
Proof.
  intros Hnm. unfold simulatedProgress.
  apply Q.min_le_compat_r.
  apply Qplus_le_r.
  apply Qmult_le_l; [reflexivity |].
  apply Qmult_le_compat_r; [| discriminate].
  rewrite <- Zle_Qle. lia.
Qed.

(** C6: the estimate is the curve [min(10 + 80·n/60, 90)]; it never
    decreases from one poll count to the next and stays below 100. *)
Theorem simulatedProgress_curve (n : nat) :
  (simulatedProgress n == Qmin (10 + 80 * inject_Z (Z.of_nat n) / 60) 90)%Q
  ∧ (simulatedProgress n <= simulatedProgress (n + 1))%Q
  ∧ (simulatedProgress n < 100)%Q.
Proof.
  split; [| split].
  - unfold simulatedProgress.
    assert (E : (10 + 80 * (inject_Z (Z.of_nat n) / 60)
                 == 10 + 80 * inject_Z (Z.of_nat n) / 60)%Q) by (field; discriminate).
    destruct (Q.min_spec (10 + 80 * (inject_Z (Z.of_nat n) / 60)) 90) as [[H1 H2]|[H1 H2]];
    destruct (Q.min_spec (10 + 80 * inject_Z (Z.of_nat n) / 60) 90) as [[H3 H4]|[H3 H4]];
    rewrite H2, H4; rewrite <- ?E in *; try reflexivity; try assumption.
    + apply Qle_antisym; [apply Qlt_le_weak |]; assumption.
    + apply Qle_antisym; [| apply Qlt_le_weak]; assumption.
  - apply simulatedProgress_mono. lia.
  - apply Qle_lt_trans with (y := 90%Q); [apply simulatedProgress_le_90 | reflexivity].
Qed.

(** ** Counting activations *)

Lemma countIf_app p l1 l2 : countIf p (l1 ++ l2) = countIf p l1 + countIf p l2.
Proof. unfold countIf. by rewrite List.filter_app, length_app. Qed.

Lemma countIf_insert p (l : list Activation) i a b :
  l !! i = Some a →
  countIf p (<[i := b]> l) + (if p a then 1 else 0)
  = countIf p l + (if p b then 1 else 0).
Proof.
  revert i. induction l as [|x l IH]; intros [|i] Hi; simplify_eq/=.
  - unfold countIf. simpl. destruct (p a), (p b); simpl; lia.
  - specialize (IH i Hi). unfold countIf in *. simpl.
    destruct (p x); simpl; lia.
Qed.

Lemma countIf_zero p (l : list Activation) i a :
  countIf p l = 0 → l !! i = Some a → p a = false.
Proof.
  revert i. induction l as [|x l IH]; intros [|i] H0 Hi; simplify_eq/=.
  - unfold countIf in H0. simpl in H0. by destruct (p a).
  - unfold countIf in *. simpl in H0. destruct (p x); [done|]. by eapply IH.
Qed.

(** ** Descriptive fields *)

(** What one event does to [generationDetails]: nothing, or the three
    conditional overwrites with the fields of the payload it delivers. *)
Lemma generationDetails_step (s : Session) (e : Event) :
  generationDetails (step s e) = generationDetails s
  ∨ ∃ m se p, payloadFields e = Some (m, se, p)
      ∧ generationDetails (step s e)
        = updateField "prompt" p
            (updateField "searchEngine" se (updateModel m (generationDetails s))).
Proof.
  destruct e as [|i r| | | |].
  - left. unfold_code. by repeat case_if.
  - case_settle i r s; try (by left); unfold_code; cbn;
      try (left; by repeat case_if).
    + right. do 3 eexists. split; [done|]. by repeat case_if.
    + unfold usableResult. repeat case_if; try (by left).
      right. do 3 eexists. split; [done|]. done.
    + unfold usableResult. repeat case_if; try (by left).
      right. do 3 eexists. split; [done|]. done.
  - left. unfold_code. by repeat case_if.
  - left. unfold_code. by repeat case_if.
  - left. unfold_code. by repeat case_if.
  - left. unfold_code. by repeat case_if.
Qed.

Lemma lookup_updateField_ne key k v (prev : gmap string string) :
  k ≠ key → updateField k v prev !! key = prev !! key.
Proof.
  intros Hne. unfold updateField. repeat case_if; try done.
  by rewrite lookup_insert_ne.
Qed.

Lemma lookup_updateField_eq k v (prev : gmap string string) :
  updateField k v prev !! k = prev !! k
  ∨ truthy v = true ∧ updateField k v prev !! k = v.
Proof.
  unfold updateField, truthy. destruct v as [x|]; [|by left].
  destruct (String.eqb x ""); simpl; [by left|].
  right. by rewrite lookup_insert_eq.
Qed.

Lemma lookup_updateModel_ne key m (prev : gmap string string) :
  key ≠ "model" → updateModel m prev !! key = prev !! key.
Proof.
  intros Hne. unfold updateModel. repeat case_if; try done.
  by rewrite lookup_insert_ne.
Qed.

Lemma lookup_updateModel_eq m (prev : gmap string string) :
  updateModel m prev !! "model" = prev !! "model"
  ∨ ∃ x, m = Some x ∧ String.eqb x "" = false ∧ String.eqb x "unknown" = false
      ∧ updateModel m prev !! "model" = Some x.
Proof.
  unfold updateModel. destruct m as [x|]; [|by left].
  destruct (String.eqb x "") eqn:E1, (String.eqb x "unknown") eqn:E2;
    simpl; try (by left).
  right. exists x. by rewrite lookup_insert_eq.
Qed.

(** C10: a payload whose [model] is the string 'unknown' acts exactly like
    one without a [model]; the model in the snapshot is only ever replaced
    by a present, non-empty model other than 'unknown'; [searchEngine] and
    [prompt] are only ever replaced by a present, non-empty value of the
    payload.  This covers the status payload and both result payloads. *)
Theorem unknown_model_is_absent (s : Session) (e : Event) :
  step s (withModel (Some "unknown") e) = step s (withModel None e)
  ∧ (generationDetails (step s e) !! "model" = generationDetails s !! "model"
     ∨ ∃ m, payloadModel e = Some m
         ∧ String.eqb m "" = false ∧ String.eqb m "unknown" = false
         ∧ generationDetails (step s e) !! "model" = Some m)
  ∧ (generationDetails (step s e) !! "searchEngine"
       = generationDetails s !! "searchEngine"
     ∨ truthy (payloadSearchEngine e) = true
       ∧ generationDetails (step s e) !! "searchEngine" = payloadSearchEngine e)
  ∧ (generationDetails (step s e) !! "prompt" = generationDetails s !! "prompt"
     ∨ truthy (payloadPrompt e) = true
       ∧ generationDetails (step s e) !! "prompt" = payloadPrompt e).
Proof.
  split.
  { destruct e as [|i [?|[[sd|]|?]|[[rd|]|?]|?]| | | |]; try reflexivity.
    all: simpl; unfold settle.
    all: destruct (activations s !! i) as [[]|]; reflexivity. }
  destruct (generationDetails_step s e) as [->|(m & se & p & Hp & ->)].
  { repeat split; by left. }
  unfold payloadModel, payloadSearchEngine, payloadPrompt. rewrite Hp.
  split; [| split].
  - rewrite !lookup_updateField_ne by done.
    destruct (lookup_updateModel_eq m (generationDetails s))
      as [->|(x & -> & ? & ? & ->)]; [by left|].
    right. by exists x.
  - rewrite lookup_updateField_ne by done.
    destruct (lookup_updateField_eq "searchEngine" se
                (updateModel m (generationDetails s))) as [->|[? ->]].
    + left. by apply lookup_updateModel_ne.
    + by right.
  - destruct (lookup_updateField_eq "prompt" p
                (updateField "searchEngine" se (updateModel m (generationDetails s))))
      as [->|[? ->]].
    + left. rewrite lookup_updateField_ne by done. by apply lookup_updateModel_ne.
    + by right.
Qed.

(** ** The reload preamble *)

(** C9: the first poll of a session issues [reloadTasks] before anything
    else, and a poll that waits for [reloadTasks] goes on in the same way
    whether that call fails or succeeds: no error is shown, the timer stays
    as it is, and the status fetch is issued next. *)
Theorem reload_failure_absorbed (s : Session) (i : nat) (err : JsError) :
  activations s !! i = Some AwaitReload →
  let s' := step s (Settle i (ReloadReply (Rejected err))) in
  (∀ locationState,
      calls (mount locationState) = [reloadTasks]
      ∧ activations (mount locationState) = [AwaitReload])
  ∧ s' = step s (Settle i (ReloadReply (Fulfilled tt)))
  ∧ error s' = error s
  ∧ generationStatus s' = generationStatus s
  ∧ result s' = result s
  ∧ loading s' = loading s
  ∧ pollCount s' = pollCount s
  ∧ pollInterval s' = pollInterval s
  ∧ activations s' !! i = Some AwaitStatus
  ∧ calls s' = calls s ++ [getGenerationStatus].
Proof.
  intros Hi. simpl. unfold settle. rewrite Hi. unfold_code. simpl.
  repeat split.
  apply list_lookup_insert_eq. by eapply lookup_lt_Some.
Qed.

Lemma reload_failure_absorbed_witness :
  activations (mount None) !! 0 = Some AwaitReload
  ∧ step (mount None)
      (Settle 0 (ReloadReply (Rejected {| message := Some "Network Error" |})))
    = step (mount None) (Settle 0 (ReloadReply (Fulfilled tt)))
  ∧ error (step (mount None)
      (Settle 0 (ReloadReply (Rejected {| message := Some "Network Error" |}))))
    = error (mount None).
Proof.
  split; [reflexivity |].
  destruct (reload_failure_absorbed (mount None) 0
              {| message := Some "Network Error" |} eq_refl)
    as (_ & Hsame & Herror & _).
  exact (conj Hsame Herror).
Defined.

(** ** Overlapping polls *)

(** What settling a call does to the list of activations: nothing, or the
    activation that waited for it moves on. *)
Lemma activations_settle (s : Session) (i : nat) (r : Reply) :
  activations (settle i r s) = activations s
  ∨ ∃ a b, activations s !! i = Some a ∧ outstanding a = true
      ∧ isStop b = false
      ∧ activations (settle i r s) = <[i := b]> (activations s).
Proof.
  unfold settle.
  destruct (activations s !! i) as [a|] eqn:Hi; [|by left].
  destruct a, r as [[[]|?]|[[?|]|?]|[[?|]|?]|[[]|?]]; try (by left);
    right; unfold_code; unfold usableResult; simpl;
    repeat case_if; simpl;
    do 2 eexists; (split; [reflexivity |]); (split; [reflexivity |]);
    (split; [| reflexivity]); reflexivity.
Qed.

Lemma outstandingCalls_settle (s : Session) (i : nat) (r : Reply) :
  outstandingCalls (settle i r s) ≤ outstandingCalls s.
Proof.
  unfold outstandingCalls.
  destruct (activations_settle s i r) as [->|(a & b & Hi & Ha & _ & ->)]; [done|].
  pose proof (countIf_insert outstanding _ _ _ b Hi) as H.
  rewrite Ha in H. destruct (outstanding b); lia.
Qed.

(** C8, as the code has it: a tick of the armed timer always starts a new
    poll, adding one outstanding call however many are outstanding already,
    and is without effect only once the timer is cleared; settling a call
    never adds an outstanding call, since one poll waits for one call at a
    time. *)
Theorem tick_starts_a_poll_regardless (s : Session) :
  outstandingCalls (step s Tick)
    = (if pollInterval s then 1 else 0) + outstandingCalls s
  ∧ length (calls (step s Tick))
    = (if pollInterval s then 1 else 0) + length (calls s)
  ∧ (if pollInterval s then True else step s Tick = s)
  ∧ ∀ i r, outstandingCalls (step s (Settle i r)) ≤ outstandingCalls s.
Proof.
  split; [| split; [| split]].
  - simpl. destruct (pollInterval s); [|done].
    unfold fetchStatus, outstandingCalls. simpl.
    destruct (Nat.eqb (pollCount s) 0); simpl; rewrite countIf_app; unfold countIf; simpl; lia.
  - simpl. destruct (pollInterval s); [|done].
    unfold fetchStatus. simpl.
    destruct (Nat.eqb (pollCount s) 0); simpl; rewrite length_app; simpl; lia.
  - simpl. by destruct (pollInterval s).
  - intros i r. apply outstandingCalls_settle.
Qed.

(** C8 as stated fails: the first poll is still waiting for its first call
    when the timer fires, and the tick starts a second poll with a call of
    its own. *)
Lemma tick_during_fetch_starts_second_call :
  outstandingCalls (mount None) = 1
  ∧ outstandingCalls (step (mount None) Tick) = 2
  ∧ activations (step (mount None) Tick) = [AwaitReload; AwaitReload]
  ∧ calls (step (mount None) Tick) = [reloadTasks; reloadTasks].
Proof. repeat split. Qed.

(** ** The stop request *)









(** ** A stop against a poll that is under way *)

Lemma generationStatus_afterStatus (s : Session) (i : nat) (sd : StatusData) :
  generationStatus (afterStatus i (Some sd) s) = sd_status sd.
Proof. unfold_code. by repeat case_if. Qed.

(** C1 as stated fails: the stop succeeds while the poll is waiting for its
    status, the poll then reports 'generating', and the session ends with
    that status, one more poll counted and the timer still armed. *)
Lemma stop_then_late_generating_poll :
  generationStatus (step pollThenStop (Settle 1 (StopReply (Fulfilled tt))))
    = "stopped"
  ∧ generationStatus
      (run pollThenStop
         [Settle 1 (StopReply (Fulfilled tt));
          Settle 0 (StatusReply (Fulfilled (Some (statusOnly "generating"))))])
    = "generating"
  ∧ pollCount
      (run pollThenStop
         [Settle 1 (StopReply (Fulfilled tt));
          Settle 0 (StatusReply (Fulfilled (Some (statusOnly "generating"))))])
    = 1
  ∧ pollInterval
      (run pollThenStop
         [Settle 1 (StopReply (Fulfilled tt));
          Settle 0 (StatusReply (Fulfilled (Some (statusOnly "generating"))))])
    = true.
Proof. repeat split. Qed.

(** ** Sessions at rest *)

(** Nothing can happen any more once the timer is cleared, the progress view
    is gone and no call is outstanding. *)
Lemma step_at_rest (s : Session) (e : Event) :
  pollInterval s = false → loading s = false → outstandingCalls s = 0 →
  step s e = s.
Proof.
  intros Htimer Hloading Hcalls.
  destruct e as [|i r| | | |]; simpl;
    unfold dialogButtonsEnabled, dialogMounted, dialogShown, progressView;
    rewrite ?Htimer, ?Hloading; try done.
  unfold settle. destruct (activations s !! i) as [a|] eqn:Hi; [|done].
  pose proof (countIf_zero _ _ _ _ Hcalls Hi) as Ha.
  destruct a; try discriminate. by destruct r as [[]|[]|[]|[]].
Qed.

Lemma run_at_rest (es : list Event) (s : Session) :
  pollInterval s = false → loading s = false → outstandingCalls s = 0 →
  run s es = s.
Proof.
  intros Htimer Hloading Hcalls.
  induction es as [|e es IH]; [done|].
  simpl. by rewrite step_at_rest.
Qed.

Lemma orElse_nonempty (o : option string) (d : string) :
  d ≠ "" → orElse o d ≠ "".
Proof.
  intros Hd. unfold orElse. destruct o as [x|]; [|done].
  destruct (String.eqb x "") eqn:E; [done|]. by apply String.eqb_neq in E.
Qed.

(** Whatever clears the timer also ends loading, and leaves a result or an
    error message to show. *)
Lemma timer_cleared_by_step (s : Session) (e : Event) :
  pollInterval s = true → pollInterval (step s e) = false →
  loading (step s e) = false
  ∧ (is_Some (result (step s e)) ∨ error (step s e) ≠ "").
Proof.
  intros Hon. destruct e as [|i r| | | |]; simpl.
  - rewrite Hon. unfold_code. simpl. repeat case_if; simpl; congruence.
  - case_settle i r s; unfold_code; unfold usableResult; simpl;
      repeat case_if; simpl; try congruence; intros _; (split; [done|]);
      first [ by left | right; try done; by apply orElse_nonempty ].
  - case_if; simpl; congruence.
  - case_if; simpl; congruence.
  - case_if; simpl; congruence.
  - case_if; simpl; congruence.
Qed.

(** C2, as the code has it: when an event ends polling (it clears the
    timer: a stored result, a reported error, a reported stop or a failed
    fetch) and leaves no call outstanding, then loading has ended, there is
    a result or an error message to show, and no later sequence of events
    changes anything in the session. *)
Theorem terminal_at_rest_is_final (s : Session) (e : Event) (es : list Event) :
  pollInterval s = true →
  pollInterval (step s e) = false →
  outstandingCalls (step s e) = 0 →
  loading (step s e) = false
  ∧ (is_Some (result (step s e)) ∨ error (step s e) ≠ "")
  ∧ run (step s e) es = step s e.
Proof.
  intros Hon Hoff Hcalls.
  destruct (timer_cleared_by_step s e Hon Hoff) as [Hloading Hshown].
  split; [done|]. split; [done|]. by apply run_at_rest.
Qed.

Lemma terminal_at_rest_is_final_witness :
  pollInterval firstPollWaiting = true
  ∧ generationStatus
      (step firstPollWaiting
         (Settle 0 (StatusReply (Fulfilled (Some (statusOnly "error"))))))
    = "error"
  ∧ run (step firstPollWaiting
           (Settle 0 (StatusReply (Fulfilled (Some (statusOnly "error"))))))
      [Tick; ClickStopGeneration; ClickConfirmStop;
       Settle 0 (StatusReply (Fulfilled (Some (statusOnly "generating"))))]
    = step firstPollWaiting
        (Settle 0 (StatusReply (Fulfilled (Some (statusOnly "error"))))).
Proof.
  split; [reflexivity |]. split; [reflexivity |].
  apply (terminal_at_rest_is_final firstPollWaiting
           (Settle 0 (StatusReply (Fulfilled (Some (statusOnly "error")))))); reflexivity.
Defined.

(** C2 as stated fails.  After a successful stop the status is 'stopped'
    but the timer is still armed, and the next poll's report replaces the
    status.  After a reported error the timer is cleared, but a poll that
    was already under way still applies its report. *)
Lemma terminal_status_left_again :
  generationStatus stoppedByUser = "stopped"
  ∧ pollInterval stoppedByUser = true
  ∧ generationStatus
      (run stoppedByUser
         [Tick; Settle 2 (StatusReply (Fulfilled (Some (statusOnly "generating"))))])
    = "generating"
  ∧ generationStatus errorWithPollUnderWay = "error"
  ∧ pollInterval errorWithPollUnderWay = false
  ∧ generationStatus
      (step errorWithPollUnderWay
         (Settle 1 (StatusReply (Fulfilled (Some (statusOnly "generating"))))))
    = "generating".
Proof. repeat split. Qed.

(** ** A job reported completed whose result is not there yet *)

(** Taking over the fields of a status payload touches the status, the
    elapsed time and the descriptive fields only. *)
Lemma noteStatus_frame (sd : StatusData) (s : Session) :
  generationStatus (noteStatus sd s) = sd_status sd
  ∧ result (noteStatus sd s) = result s
  ∧ loading (noteStatus sd s) = loading s
  ∧ error (noteStatus sd s) = error s
  ∧ progress (noteStatus sd s) = progress s
  ∧ pollCount (noteStatus sd s) = pollCount s
  ∧ pollInterval (noteStatus sd s) = pollInterval s
  ∧ stopInProgress (noteStatus sd s) = stopInProgress s
  ∧ activations (noteStatus sd s) = activations s
  ∧ calls (noteStatus sd s) = calls s.
Proof. unfold noteStatus, updateDetails. repeat split; by repeat case_if. Qed.

(** C3, as the code has it: when the status fetch reports 'completed' and
    the result fetch brings a payload without a usable result, the status
    shown becomes 'completed' and the progress 100, no result is stored,
    nothing is reported as an error, the poll counter stays as it was and so
    does the timer; the next tick polls again. *)
Theorem completed_without_result_polls_again
    (s : Session) (i : nat) (sd : StatusData) (rd : option ResultData) :
  activations s !! i = Some AwaitStatus →
  sd_status sd = "completed" →
  usableResult rd = None →
  let s' := run s [Settle i (StatusReply (Fulfilled (Some sd)));
                   Settle i (ResultReply (Fulfilled rd))] in
  generationStatus s' = "completed"
  ∧ progress s' = 100%Q
  ∧ result s' = result s
  ∧ error s' = error s
  ∧ loading s' = loading s
  ∧ pollCount s' = pollCount s
  ∧ pollInterval s' = pollInterval s
  ∧ calls s' = calls s ++ [getGenerationResult]
  ∧ activations s' = <[i := Returned]> (activations s)
  ∧ step s' Tick = (if pollInterval s then fetchStatus s' else s').
Proof.
  intros Hi Hsd Hrd. simpl.
  assert (Hlen : i < length (activations s)) by by eapply lookup_lt_Some.
  destruct (noteStatus_frame sd s)
    as (Est & Eres & Eload & Eerr & _ & Ecount & Etimer & _ & Eact & Ecalls).
  assert (H1 : settle i (StatusReply (Fulfilled (Some sd))) s
               = suspend i AwaitResult
                   (call getGenerationResult (setProgress 100 (noteStatus sd s)))).
  { unfold settle. rewrite Hi. unfold afterStatus. by rewrite Hsd. }
  rewrite H1. set (s1 := suspend i AwaitResult _).
  assert (Hi1 : activations s1 !! i = Some AwaitResult).
  { subst s1. unfold suspend, call. cbn -[noteStatus].
    apply list_lookup_insert_eq. by rewrite Eact. }
  assert (H2 : settle i (ResultReply (Fulfilled rd)) s1 = finish i s1).
  { unfold settle. rewrite Hi1. unfold afterResult.
    destruct rd; [by rewrite Hrd | done]. }
  rewrite H2. subst s1. unfold finish, suspend, call. cbn -[noteStatus].
  rewrite Est, Eres, Eload, Eerr, Ecount, Etimer, Eact, Ecalls, Hsd.
  repeat split. by rewrite list_insert_insert_eq.
Qed.

Lemma completed_without_result_polls_again_witness :
  activations firstPollWaiting !! 0 = Some AwaitStatus
  ∧ usableResult (Some (resultOnly None)) = None
  ∧ generationStatus
      (run firstPollWaiting
         [Settle 0 (StatusReply (Fulfilled (Some (statusOnly "completed"))));
          Settle 0 (ResultReply (Fulfilled (Some (resultOnly None))))])
    = "completed"
  ∧ pollCount
      (run firstPollWaiting
         [Settle 0 (StatusReply (Fulfilled (Some (statusOnly "completed"))));
          Settle 0 (ResultReply (Fulfilled (Some (resultOnly None))))])
    = pollCount firstPollWaiting.
Proof.
  split; [reflexivity |]. split; [reflexivity |].
  destruct (completed_without_result_polls_again firstPollWaiting 0
              (statusOnly "completed") (Some (resultOnly None))
              eq_refl eq_refl eq_refl) as (Hst & _ & _ & _ & _ & Hcount & _).
  exact (conj Hst Hcount).
Defined.

(** C3 as stated fails: the second poll finds 'completed' and a result
    payload that has no [result]; the poll counter is 1 before and 1 after
    it, and the status shown has become 'completed' although the timer
    stays armed. *)
Lemma completed_without_result_counts_no_poll :
  generationStatus secondPollWaiting = "generating"
  ∧ pollCount secondPollWaiting = 1
  ∧ generationStatus
      (run secondPollWaiting
         [Settle 1 (StatusReply (Fulfilled (Some (statusOnly "completed"))));
          Settle 1 (ResultReply (Fulfilled (Some (resultOnly None))))])
    = "completed"
  ∧ pollCount
      (run secondPollWaiting
         [Settle 1 (StatusReply (Fulfilled (Some (statusOnly "completed"))));
          Settle 1 (ResultReply (Fulfilled (Some (resultOnly None))))])
    = 1
  ∧ pollInterval
      (run secondPollWaiting
         [Settle 1 (StatusReply (Fulfilled (Some (statusOnly "completed"))));
          Settle 1 (ResultReply (Fulfilled (Some (resultOnly None))))])
    = true.
Proof. repeat split. Qed.

(** ** Progress and status *)

(** What one event does to the status and the progress shown. *)
Lemma status_progress_step (s : Session) (e : Event) :
  (generationStatus (step s e) = generationStatus s
   ∧ progress (step s e) = progress s)
  ∨ (generationStatus (step s e) = "completed"
     ∧ progress (step s e) = 100%Q)
  ∨ ((generationStatus (step s e) = "error"
      ∨ generationStatus (step s e) = "stopped")
     ∧ progress (step s e) = progress s)
  ∨ (terminalStatus (generationStatus (step s e)) = false
     ∧ progress (step s e) = simulatedProgress (pollCount (step s e))).
Proof.
  destruct e as [|i r| | | |]; simpl;
    try (left; unfold_code; by repeat case_if).
  unfold settle.
  destruct (activations s !! i) as [a|] eqn:Hi; [|by left].
  destruct a, r as [[[]|?]|[[sd|]|?]|[[?|]|?]|[[]|?]]; try (by left);
    try (left; unfold_code; by repeat case_if).
  - (* a status payload *)
    destruct (noteStatus_frame sd s) as (Est & _ & _ & _ & Eprog & _).
    unfold afterStatus.
    destruct (String.eqb (sd_status sd) "completed") eqn:E1;
      [| destruct (String.eqb (sd_status sd) "error") eqn:E2;
         [| destruct (String.eqb (sd_status sd) "stopped") eqn:E3]].
    + right; left. apply String.eqb_eq in E1.
      unfold suspend, call. cbn -[noteStatus]. by rewrite Est.
    + right; right; left. apply String.eqb_eq in E2.
      unfold finish, suspend, clearInterval. cbn -[noteStatus].
      rewrite Est, Eprog. auto.
    + right; right; left. apply String.eqb_eq in E3.
      unfold finish, suspend, clearInterval. cbn -[noteStatus].
      rewrite Est, Eprog. auto.
    + right; right; right.
      unfold finish, suspend. cbn -[noteStatus].
      rewrite Est. unfold terminalStatus. by rewrite E1, E2, E3.
  - (* the result of the direct fetch *)
    unfold afterDirectResult.
    repeat case_if; try (left; unfold_code; by repeat case_if).
    right; left. unfold_code. by repeat case_if.
  - (* the stop succeeded *)
    right; right; left. unfold_code. simpl. auto.
Qed.

(** A poll that reports a status other than 'completed', 'error' and
    'stopped' counts itself and sets the progress to the estimate for the
    new count. *)
Lemma progress_after_poll (s : Session) (i : nat) (sd : StatusData) :
  terminalStatus (sd_status sd) = false →
  pollCount (afterStatus i (Some sd) s) = S (pollCount s)
  ∧ progress (afterStatus i (Some sd) s) = simulatedProgress (S (pollCount s)).
Proof.
  unfold terminalStatus. intros Hnt.
  destruct (String.eqb (sd_status sd) "completed") eqn:E1; [done|].
  destruct (String.eqb (sd_status sd) "error") eqn:E2; [done|].
  destruct (String.eqb (sd_status sd) "stopped") eqn:E3; [done|].
  destruct (noteStatus_frame sd s) as (_ & _ & _ & _ & _ & Ecount & _).
  unfold afterStatus. rewrite E1, E2, E3.
  unfold finish, suspend. cbn -[noteStatus]. by rewrite Ecount.
Qed.

(** A poll whose status payload reports a status other than 'completed',
    'error' and 'stopped' returns with the poll counted, the progress set
    to the estimate, and the timer, the loading flag, the error message and
    the result as they were. *)
Lemma still_processing_frame (s : Session) (i : nat) (sd : StatusData) :
  terminalStatus (sd_status sd) = false →
  pollCount (afterStatus i (Some sd) s) = S (pollCount s)
  ∧ progress (afterStatus i (Some sd) s) = simulatedProgress (S (pollCount s))
  ∧ pollInterval (afterStatus i (Some sd) s) = pollInterval s
  ∧ loading (afterStatus i (Some sd) s) = loading s
  ∧ error (afterStatus i (Some sd) s) = error s
  ∧ result (afterStatus i (Some sd) s) = result s
  ∧ calls (afterStatus i (Some sd) s) = calls s
  ∧ activations (afterStatus i (Some sd) s) = <[i := Returned]> (activations s).
Proof.
  unfold terminalStatus. intros Hnt.
  destruct (String.eqb (sd_status sd) "completed") eqn:E1; [done|].
  destruct (String.eqb (sd_status sd) "error") eqn:E2; [done|].
  destruct (String.eqb (sd_status sd) "stopped") eqn:E3; [done|].
  destruct (noteStatus_frame sd s)
    as (_ & Eres & Eload & Eerr & _ & Ecount & Etimer & _ & Eact & Ecalls).
  unfold afterStatus. rewrite E1, E2, E3.
  unfold finish, suspend. cbn -[noteStatus].
  by rewrite Eres, Eload, Eerr, Ecount, Etimer, Eact, Ecalls.
Qed.

(** C1, as the code has it: the moment the stop request succeeds the status
    is 'stopped' (the timer and the poll counter are left as they were); a
    poll that was waiting for its status and gets it afterwards replaces
    that status by the one it reports, so that 'stopped' stays only if the
    poll reports 'stopped'; when it reports a status other than
    'completed', 'error' and 'stopped', the poll is counted, the progress
    is set to the estimate, and the timer and the loading flag stay as they
    were: polling goes on. *)
Theorem late_poll_overwrites_stop (s : Session) (i j : nat) (sd : StatusData) :
  activations s !! i = Some AwaitStatus →
  activations s !! j = Some AwaitStop →
  let s1 := step s (Settle j (StopReply (Fulfilled tt))) in
  let s2 := step s1 (Settle i (StatusReply (Fulfilled (Some sd)))) in
  generationStatus s1 = "stopped"
  ∧ error s1 = "Task has been stopped by user request."
  ∧ pollInterval s1 = pollInterval s
  ∧ pollCount s1 = pollCount s
  ∧ activations s1 !! i = Some AwaitStatus
  ∧ generationStatus s2 = sd_status sd
  ∧ (generationStatus s2 = "stopped" ↔ sd_status sd = "stopped")
  ∧ (terminalStatus (sd_status sd) = false →
     pollCount s2 = S (pollCount s)
     ∧ progress s2 = simulatedProgress (S (pollCount s))
     ∧ pollInterval s2 = pollInterval s
     ∧ loading s2 = loading s
     ∧ calls s2 = calls s
     ∧ activations s2 !! i = Some Returned).
Proof.
  intros Hi Hj. cbv zeta.
  assert (Hij : j ≠ i) by (intros ->; congruence).
  assert (Hlen : i < length (activations s)) by by eapply lookup_lt_Some.
  assert (H1 : step s (Settle j (StopReply (Fulfilled tt)))
               = afterStopFulfilled j s)
    by (simpl; unfold settle; by rewrite Hj).
  rewrite H1.
  assert (Hact1 : activations (afterStopFulfilled j s)
                  = <[j := Returned]> (activations s)) by done.
  assert (Hi' : activations (afterStopFulfilled j s) !! i = Some AwaitStatus)
    by (rewrite Hact1; by rewrite list_lookup_insert_ne).
  assert (H2 : step (afterStopFulfilled j s)
                 (Settle i (StatusReply (Fulfilled (Some sd))))
               = afterStatus i (Some sd) (afterStopFulfilled j s))
    by (simpl; unfold settle; by rewrite Hi').
  rewrite H2, generationStatus_afterStatus.
  do 7 (split; [done |]).
  intros Hnt.
  destruct (still_processing_frame (afterStopFulfilled j s) i sd Hnt)
    as (Ecount & Eprog & Etimer & Eload & _ & _ & Ecalls & Eact).
  do 5 (split; [done |]).
  rewrite Eact, Hact1. apply list_lookup_insert_eq.
  by rewrite length_insert.
Qed.

Lemma late_poll_overwrites_stop_witness :
  activations pollThenStop !! 0 = Some AwaitStatus
  ∧ activations pollThenStop !! 1 = Some AwaitStop
  ∧ generationStatus
      (step (step pollThenStop (Settle 1 (StopReply (Fulfilled tt))))
         (Settle 0 (StatusReply (Fulfilled (Some (statusOnly "generating"))))))
    = "generating"
  ∧ pollCount
      (step (step pollThenStop (Settle 1 (StopReply (Fulfilled tt))))
         (Settle 0 (StatusReply (Fulfilled (Some (statusOnly "generating"))))))
    = S (pollCount pollThenStop)
  ∧ pollInterval
      (step (step pollThenStop (Settle 1 (StopReply (Fulfilled tt))))
         (Settle 0 (StatusReply (Fulfilled (Some (statusOnly "generating"))))))
    = pollInterval pollThenStop.
Proof.
  split; [reflexivity |]. split; [reflexivity |].
  destruct (late_poll_overwrites_stop pollThenStop 0 1 (statusOnly "generating")
              eq_refl eq_refl) as (_ & _ & _ & _ & _ & Hst & _ & Hgo).
  destruct (Hgo eq_refl) as (Hcount & _ & Htimer & _).
  exact (conj Hst (conj Hcount Htimer)).
Defined.

Lemma progressInv_step (s : Session) (e : Event) :
  progressInv s → progressInv (step s e).
Proof.
  unfold progressInv. intros Inv.
  destruct (status_progress_step s e)
    as [[-> ->]|[[-> _]|[[[-> | ->] _]|[_ ->]]]]; auto.
  right. apply simulatedProgress_le_90.
Qed.

Lemma progressInv_reachable (s : Session) : reachable s → progressInv s.
Proof.
  intros (locationState & es & ->).
  assert (H : progressInv (mount locationState)) by (right; discriminate).
  revert H. generalize (mount locationState).
  induction es as [|e es IH]; intros s0 H; [done|].
  simpl. apply IH. by apply progressInv_step.
Qed.

(** C5, as the code has it: while the status shown is none of 'completed',
    'error' and 'stopped', the progress is at most 90, so below 100; a step
    brings the progress to 100 only together with the status 'completed',
    and every step that brings the status to 'completed' sets the progress
    to 100; a step that ends with the status 'error' or 'stopped' leaves
    the progress as it was. *)
Theorem progress_100_with_completed_status (s : Session) (e : Event) :
  reachable s →
  (terminalStatus (generationStatus s) = false → (progress s < 100)%Q)
  ∧ ((progress (step s e) == 100)%Q → ¬ (progress s == 100)%Q →
     generationStatus (step s e) = "completed")
  ∧ (generationStatus (step s e) = "completed" →
     generationStatus s ≠ "completed" → progress (step s e) = 100%Q)
  ∧ (generationStatus (step s e) = "error"
     ∨ generationStatus (step s e) = "stopped" →
     progress (step s e) = progress s).
Proof.
  intros Hs. split; [| split; [| split]].
  - intros Hnt. destruct (progressInv_reachable s Hs) as [Ht|Hle]; [congruence|].
    apply Qle_lt_trans with (y := 90%Q); [done | reflexivity].
  - intros H100 Hnot.
    destruct (status_progress_step s e)
      as [[_ E]|[[E _]|[[_ E]|[_ E]]]]; try done.
    + rewrite E in H100. contradiction.
    + rewrite E in H100. contradiction.
    + rewrite E in H100.
      pose proof (simulatedProgress_le_90 (pollCount (step s e))) as Hle.
      rewrite H100 in Hle. exfalso. apply Hle. reflexivity.
  - intros Hdone Hnot.
    destruct (status_progress_step s e)
      as [[E _]|[[_ E]|[[[E|E] _]|[E _]]]]; try done; try congruence.
    rewrite Hdone in E. discriminate E.
  - intros Hend.
    destruct (status_progress_step s e)
      as [[_ E]|[[E _]|[[_ E]|[E _]]]]; try done.
    + destruct Hend; congruence.
    + destruct Hend as [H|H]; rewrite H in E; discriminate E.
Qed.

Lemma progress_100_with_completed_status_witness :
  terminalStatus (generationStatus secondPollWaiting) = false
  ∧ (progress secondPollWaiting < 100)%Q
  ∧ progress
      (step secondPollWaiting
         (Settle 1 (StatusReply (Fulfilled (Some (statusOnly "error"))))))
    = progress secondPollWaiting.
Proof.
  split; [reflexivity |].
  destruct (progress_100_with_completed_status secondPollWaiting
              (Settle 1 (StatusReply (Fulfilled (Some (statusOnly "error"))))))
    as (Hlt & _ & _ & Hfrozen).
  - exists None.
    exists [Settle 0 (ReloadReply (Fulfilled tt));
            Settle 0 (StatusReply (Fulfilled (Some (statusOnly "generating"))));
            Tick].
    reflexivity.
  - split; [apply Hlt; reflexivity | apply Hfrozen; left; reflexivity].
Defined.

(** C5 as stated fails: the first poll reports 'completed' and the progress
    is 100 from then on, while the result is still being fetched and after
    it has come back without a result: no result is stored, the page is
    still loading, the timer is armed and the next tick polls again. *)
Lemma progress_100_while_still_polling :
  progress
    (step firstPollWaiting
       (Settle 0 (StatusReply (Fulfilled (Some (statusOnly "completed"))))))
    = 100%Q
  ∧ outstandingCalls
      (step firstPollWaiting
         (Settle 0 (StatusReply (Fulfilled (Some (statusOnly "completed"))))))
    = 1
  ∧ progress
      (run firstPollWaiting
         [Settle 0 (StatusReply (Fulfilled (Some (statusOnly "completed"))));
          Settle 0 (ResultReply (Fulfilled (Some (resultOnly (Some "")))))])
    = 100%Q
  ∧ result
      (run firstPollWaiting
         [Settle 0 (StatusReply (Fulfilled (Some (statusOnly "completed"))));
          Settle 0 (ResultReply (Fulfilled (Some (resultOnly (Some "")))))])
    = None
  ∧ loading
      (run firstPollWaiting
         [Settle 0 (StatusReply (Fulfilled (Some (statusOnly "completed"))));
          Settle 0 (ResultReply (Fulfilled (Some (resultOnly (Some "")))))])
    = true
  ∧ pollInterval
      (run firstPollWaiting
         [Settle 0 (StatusReply (Fulfilled (Some (statusOnly "completed"))));
          Settle 0 (ResultReply (Fulfilled (Some (resultOnly (Some "")))))])
    = true
  ∧ calls
      (run firstPollWaiting
         [Settle 0 (StatusReply (Fulfilled (Some (statusOnly "completed"))));
          Settle 0 (ResultReply (Fulfilled (Some (resultOnly (Some "")))));
          Tick])
    = [reloadTasks; getGenerationStatus; getGenerationResult; reloadTasks].
Proof. repeat split. Qed.

(** ** The direct fetch after a failed status fetch *)

(** A status fetch fails while the poll counter is 0 and the direct fetch
    brings a usable result. *)
Lemma direct_fetch_completes
    (s : Session) (i : nat) (err : JsError) (rd : option ResultData) (r : string) :
  activations s !! i = Some AwaitStatus →
  usableResult rd = Some r →
  pollCount s = 0 →
  let s1 := step s (Settle i (StatusReply (Rejected err))) in
  let s2 := step s1 (Settle i (ResultReply (Fulfilled rd))) in
  calls s1 = calls s ++ [getGenerationResult]
  ∧ error s1 = error s
  ∧ pollInterval s1 = pollInterval s
  ∧ result s2 = Some r
  ∧ generationStatus s2 = "completed"
  ∧ progress s2 = 100%Q
  ∧ error s2 = error s
  ∧ pollInterval s2 = false
  ∧ loading s2 = false
  ∧ activations s2 = <[i := Returned]> (activations s).
Proof.
  intros Hi Hrd Hz. cbv zeta.
  assert (Hlen : i < length (activations s)) by by eapply lookup_lt_Some.
  assert (H1 : step s (Settle i (StatusReply (Rejected err)))
               = suspend i (AwaitDirectResult err) (call getGenerationResult s))
    by (simpl; unfold settle, catchBlock; by rewrite Hi, Hz).
  rewrite H1.
  destruct rd as [rd|]; [|discriminate].
  cbn -[usableResult]. unfold settle, suspend, call.
  cbn -[usableResult]. rewrite list_lookup_insert_eq by done.
  unfold afterDirectResult. rewrite Hrd. unfold_code. simpl.
  repeat split. by rewrite list_insert_insert_eq.
Qed.

(** The direct fetch is keyed on the poll counter, not on the number of
    the attempt: when a status fetch fails while the poll counter is still
    0, the result is fetched directly, and a usable result ends the session
    as completed with that result and no new error message; when the poll
    counter is not 0, the failure is reported as an error at once and no
    result is fetched.  On the first poll of a session, with no other poll
    under way, the poll counter is 0: after the direct fetch the session is
    completed, without an error message, and nothing changes it any more. *)
Theorem direct_fetch_while_poll_count_zero
    (s : Session) (i : nat) (err : JsError) (rd : option ResultData) (r : string) :
  activations s !! i = Some AwaitStatus →
  usableResult rd = Some r →
  let s1 := step s (Settle i (StatusReply (Rejected err))) in
  let s2 := step s1 (Settle i (ResultReply (Fulfilled rd))) in
  (pollCount s = 0 →
     calls s1 = calls s ++ [getGenerationResult]
     ∧ error s1 = error s
     ∧ pollInterval s1 = pollInterval s
     ∧ result s2 = Some r
     ∧ generationStatus s2 = "completed"
     ∧ progress s2 = 100%Q
     ∧ error s2 = error s
     ∧ pollInterval s2 = false
     ∧ loading s2 = false)
  ∧ (pollCount s ≠ 0 →
     calls s1 = calls s
     ∧ error s1
       = "Error checking generation status: " +:+ orElse (message err) "Unknown error"
     ∧ result s1 = result s
     ∧ generationStatus s1 = generationStatus s
     ∧ pollInterval s1 = false
     ∧ loading s1 = false
     ∧ activations s1 = <[i := Returned]> (activations s))
  ∧ (∀ locationState reload es,
       let t := run (mount locationState)
                  [Settle 0 (ReloadReply reload);
                   Settle 0 (StatusReply (Rejected err));
                   Settle 0 (ResultReply (Fulfilled rd))] in
       result t = Some r
       ∧ generationStatus t = "completed"
       ∧ error t = ""
       ∧ run t es = t).
Proof.
  intros Hi Hrd. cbv zeta. split; [| split].
  - intros Hz.
    destruct (direct_fetch_completes s i err rd r Hi Hrd Hz)
      as (? & ? & ? & ? & ? & ? & ? & ? & ? & _).
    done.
  - intros Hne. apply Nat.eqb_neq in Hne.
    assert (H1 : step s (Settle i (StatusReply (Rejected err)))
                 = reportPollError i err s)
      by (simpl; unfold settle, catchBlock; by rewrite Hi, Hne).
    rewrite H1. by unfold_code.
  - intros locationState reload es.
    unfold run at 1. cbn [fold_left].
    set (s0 := step (mount locationState) (Settle 0 (ReloadReply reload))).
    assert (H0 : activations s0 = [AwaitStatus]) by reflexivity.
    destruct (direct_fetch_completes s0 0 err rd r eq_refl Hrd eq_refl)
      as (_ & _ & _ & Hres & Hst & _ & Herr & Htimer & Hload & Hact).
    repeat split; try done.
    apply run_at_rest; try done.
    unfold outstandingCalls, run, fold_left. fold s0.
    rewrite Hact, H0. reflexivity.
Qed.

Lemma direct_fetch_while_poll_count_zero_witness :
  activations secondPollWaiting !! 1 = Some AwaitStatus
  ∧ usableResult (Some (resultOnly (Some "text"))) = Some "text"
  ∧ pollCount secondPollWaiting ≠ 0
  ∧ error
      (step secondPollWaiting
         (Settle 1 (StatusReply (Rejected {| message := Some "Network Error" |}))))
    = "Error checking generation status: Network Error"
  ∧ calls
      (step secondPollWaiting
         (Settle 1 (StatusReply (Rejected {| message := Some "Network Error" |}))))
    = calls secondPollWaiting.
Proof.
  split; [reflexivity |]. split; [reflexivity |].
  assert (Hne : pollCount secondPollWaiting ≠ 0) by discriminate.
  split; [exact Hne |].
  destruct (direct_fetch_while_poll_count_zero secondPollWaiting 1
              {| message := Some "Network Error" |}
              (Some (resultOnly (Some "text"))) "text" eq_refl eq_refl)
    as (_ & Hlater & _).
  destruct (Hlater Hne) as (Hcalls & Herror & _).
  exact (conj Herror Hcalls).
Defined.

(** C7: the code at the failing input.  The comment in the [catch] block
    reserves the direct fetch for the first attempt, and the code tests
    [pollCount === 0] for it; but a first poll that found the job completed
    without a result was not counted, so when the status fetch of the
    second poll fails the poll counter is still 0, the result is fetched
    directly and the session ends completed, where a failure on a later
    poll is meant to end in an error without the direct fetch. *)
Lemma later_poll_failure_uses_direct_fetch :
  length (activations secondPollAfterEmptyResult) = 2
  ∧ activations secondPollAfterEmptyResult !! 1 = Some AwaitStatus
  ∧ pollCount secondPollAfterEmptyResult = 0
  ∧ calls
      (step secondPollAfterEmptyResult
         (Settle 1 (StatusReply (Rejected {| message := Some "Network Error" |}))))
    = calls secondPollAfterEmptyResult ++ [getGenerationResult]
  ∧ error
      (run secondPollAfterEmptyResult
         [Settle 1 (StatusReply (Rejected {| message := Some "Network Error" |}));
          Settle 1 (ResultReply (Fulfilled (Some (resultOnly (Some "text")))))])
    = ""
  ∧ result
      (run secondPollAfterEmptyResult
         [Settle 1 (StatusReply (Rejected {| message := Some "Network Error" |}));
          Settle 1 (ResultReply (Fulfilled (Some (resultOnly (Some "text")))))])
    = Some "text"
  ∧ generationStatus
      (run secondPollAfterEmptyResult
         [Settle 1 (StatusReply (Rejected {| message := Some "Network Error" |}));
          Settle 1 (ResultReply (Fulfilled (Some (resultOnly (Some "text")))))])
    = "completed".
Proof. repeat split. Qed.

(** * Further properties of the results page *)

Lemma usableResult_nonempty (rd : option ResultData) (r : string) :
  usableResult rd = Some r → r ≠ "".
Proof.
  unfold usableResult, truthy. destruct rd as [rd|]; [|done].
  destruct (rd_result rd) as [x|]; [|done].
  destruct (String.eqb x "") eqn:E; simpl; [done|].
  intros [= <-]. by apply String.eqb_neq in E.
Qed.

Lemma append_nonempty (a b : string) : a ≠ "" → a +:+ b ≠ "".
Proof. by destruct a. Qed.

(** What one event does to the loading flag, the timer and the stored
    result: nothing; or a tick of the armed timer sets loading; or polling
    ends with an error message; or polling ends with a result stored. *)
Lemma core_step (s : Session) (e : Event) :
  (loading (step s e) = loading s
   ∧ pollInterval (step s e) = pollInterval s
   ∧ result (step s e) = result s)
  ∨ (pollInterval s = true
     ∧ loading (step s e) = true
     ∧ pollInterval (step s e) = true
     ∧ result (step s e) = result s)
  ∨ (loading (step s e) = false
     ∧ pollInterval (step s e) = false
     ∧ result (step s e) = result s
     ∧ error (step s e) ≠ "")
  ∨ (loading (step s e) = false
     ∧ pollInterval (step s e) = false
     ∧ ∃ r, result (step s e) = Some r ∧ r ≠ "").
Proof.
  destruct e as [|i r| | | |]; simpl;
    try (left; unfold_code; by repeat case_if).
  - destruct (pollInterval s) eqn:Hon; [|by left].
    right; left. unfold_code. simpl. by repeat case_if.
  - unfold settle.
    destruct (activations s !! i) as [a|] eqn:Hi; [|by left].
    destruct a, r as [[[]|?]|[[sd|]|?]|[[rd|]|?]|[[]|?]]; try (by left);
      try (left; unfold_code; by repeat case_if).
    + (* a status payload *)
      destruct (noteStatus_frame sd s)
        as (_ & Eres & Eload & _ & _ & _ & Etimer & _).
      unfold afterStatus.
      destruct (String.eqb (sd_status sd) "completed");
        [| destruct (String.eqb (sd_status sd) "error");
           [| destruct (String.eqb (sd_status sd) "stopped")]];
        unfold finish, suspend, call, clearInterval; cbn -[noteStatus].
      * left. by rewrite Eres, Eload, Etimer.
      * right; right; left. rewrite Eres. repeat split.
        by apply orElse_nonempty.
      * right; right; left. by rewrite Eres.
      * left. by rewrite Eres, Eload, Etimer.
    + (* the status fetch failed *)
      unfold catchBlock. case_if; [by left|].
      right; right; left. unfold_code. simpl. repeat split; try done.
    + (* the result of a job reported completed *)
      unfold afterResult.
      destruct (usableResult (Some rd)) as [x|] eqn:Hx; [|by left].
      right; right; right. unfold_code. simpl. repeat split; try done.
      exists x. split; [done|]. by eapply usableResult_nonempty.
    + (* that result fetch failed *)
      unfold catchBlock. case_if; [by left|].
      right; right; left. unfold_code. simpl. repeat split; try done.
    + (* the result of the direct fetch *)
      unfold afterDirectResult.
      destruct (usableResult (Some rd)) as [x|] eqn:Hx.
      * right; right; right. unfold_code. simpl. repeat split; try done.
        exists x. split; [done|]. by eapply usableResult_nonempty.
      * right; right; left. unfold_code. simpl. repeat split; try done.
    + right; right; left. unfold_code. simpl. repeat split; try done.
    + right; right; left. unfold_code. simpl. repeat split; try done.
Qed.

Lemma error_step (s : Session) (e : Event) :
  error (step s e) = error s ∨ error (step s e) ≠ "".
Proof.
  destruct e as [|i r| | | |]; simpl;
    try (left; unfold_code; by repeat case_if).
  unfold settle.
  destruct (activations s !! i) as [a|] eqn:Hi; [|by left].
  destruct a, r as [[[]|?]|[[sd|]|?]|[[rd|]|?]|[[]|?]]; try (by left);
    try (left; unfold_code; by repeat case_if).
  - destruct (noteStatus_frame sd s) as (_ & _ & _ & Eerr & _).
    unfold afterStatus.
    destruct (String.eqb (sd_status sd) "completed");
      [| destruct (String.eqb (sd_status sd) "error");
         [| destruct (String.eqb (sd_status sd) "stopped")]];
      unfold finish, suspend, call, clearInterval; cbn -[noteStatus];
      try (by left); right; try done.
    by apply orElse_nonempty.
  - unfold catchBlock. case_if; [by left | by right].
  - unfold catchBlock. case_if; [by left | by right].
  - unfold afterDirectResult.
    destruct (usableResult (Some rd)); [left | right]; unfold_code; by simpl.
  - by right.
  - by right.
  - by right.
  - right. unfold_code. by simpl.
Qed.

Lemma run_snoc (s : Session) (es : list Event) (e : Event) :
  run s (es ++ [e]) = step (run s es) e.
Proof. unfold run. by rewrite fold_left_app. Qed.

(** An invariant of [step] that holds on mounting holds in every reachable
    state. *)
Lemma reachable_ind (P : Session → Prop) :
  (∀ locationState, P (mount locationState)) →
  (∀ s e, P s → P (step s e)) →
  ∀ s, reachable s → P s.
Proof.
  intros Hmount Hstep s (locationState & es & ->).
  induction es as [|e es IH] using rev_ind; [apply Hmount|].
  rewrite run_snoc. by apply Hstep.
Qed.

(** A property that every step keeps is kept by every run. *)
Lemma run_keeps (P : Session → Prop) :
  (∀ s e, P s → P (step s e)) →
  ∀ es s, P s → P (run s es).
Proof.
  intros Hstep es. induction es as [|e es IH]; intros s Hs; [done|].
  simpl. apply IH. by apply Hstep.
Qed.

Lemma reachable_mount (locationState : option (gmap string string)) :
  reachable (mount locationState).
Proof. by exists locationState, []. Qed.

Lemma reachable_run (s : Session) (es : list Event) :
  reachable s → reachable (run s es).
Proof.
  intros (locationState & es0 & ->). exists locationState, (es0 ++ es).
  unfold run. by rewrite fold_left_app.
Qed.

Lemma reachable_step (s : Session) (e : Event) :
  reachable s → reachable (step s e).
Proof. apply (reachable_run s [e]). Qed.

Lemma pollEndInv_step (s : Session) (e : Event) :
  pollEndInv s → pollEndInv (step s e).
Proof.
  unfold pollEndInv. intros [Hload Hres].
  destruct (core_step s e)
    as [(El & Et & Er)|[(Hon & El & Et & Er)|[(El & Et & Er & Ee)|(El & Et & r & Er & Hr)]]];
    rewrite ?El, ?Et, ?Er.
  - split; [|done]. intros Hl. destruct (Hload Hl) as [Hoff Hshown].
    split; [done|]. destruct Hshown as [He|Hr]; [|by right].
    destruct (error_step s e) as [->|Hne]; by left.
  - split; [done|]. intros Hr. specialize (Hres Hr).
    destruct (Hload Hres) as [Hoff _]. congruence.
  - split; [|done]. intros _. split; [done|]. by left.
  - split; [|done]. intros _. split; [done|]. right. by eexists.
Qed.

(** X1: in every reachable state, when loading has ended the timer is
    cleared and there is an error message or a stored result to show, and a
    stored result is only ever seen with loading ended and the timer
    cleared. *)
Theorem loading_ended_means_polling_ended (s : Session) :
  reachable s →
  (loading s = false →
     pollInterval s = false ∧ (error s ≠ "" ∨ is_Some (result s)))
  ∧ (is_Some (result s) → loading s = false ∧ pollInterval s = false).
Proof.
  intros Hs.
  assert (Inv : pollEndInv s).
  { revert s Hs. apply reachable_ind; [|apply pollEndInv_step].
    intros locationState. split; [discriminate|]. by intros [? [=]]. }
  destruct Inv as [Hload Hres]. split; [done|].
  intros Hr. specialize (Hres Hr). by destruct (Hload Hres).
Qed.

Lemma loading_ended_means_polling_ended_witness :
  loading
    (step firstPollWaiting
       (Settle 0 (StatusReply (Fulfilled (Some (statusOnly "stopped"))))))
    = false
  ∧ pollInterval
      (step firstPollWaiting
         (Settle 0 (StatusReply (Fulfilled (Some (statusOnly "stopped"))))))
    = false.
Proof.
  split; [reflexivity |].
  destruct (loading_ended_means_polling_ended
              (step firstPollWaiting
                 (Settle 0 (StatusReply (Fulfilled (Some (statusOnly "stopped")))))))
    as [Hload _].
  - apply reachable_step, reachable_run, reachable_mount.
  - exact (proj1 (Hload eq_refl)).
Defined.

Lemma pollInterval_off_step (s : Session) (e : Event) :
  pollInterval s = false → pollInterval (step s e) = false.
Proof.
  intros Hoff.
  destruct (core_step s e)
    as [(_ & Et & _)|[(Hon & _)|[(_ & Et & _)|(_ & Et & _)]]]; congruence.
Qed.

(** X2: once the timer has been cleared nothing arms it again: after any
    further events it is still cleared and a tick does nothing. *)
Theorem timer_never_rearmed (s : Session) (es : list Event) :
  pollInterval s = false →
  pollInterval (run s es) = false ∧ step (run s es) Tick = run s es.
Proof.
  intros Hoff.
  assert (H : pollInterval (run s es) = false).
  { revert es s Hoff.
    apply (run_keeps (λ s, pollInterval s = false)), pollInterval_off_step. }
  split; [done|]. simpl. by rewrite H.
Qed.

Lemma timer_never_rearmed_witness :
  pollInterval errorWithPollUnderWay = false
  ∧ pollInterval
      (run errorWithPollUnderWay
         [Settle 1 (StatusReply (Fulfilled (Some (statusOnly "generating")))); Tick])
    = false.
Proof.
  split; [reflexivity |].
  apply (timer_never_rearmed errorWithPollUnderWay
           [Settle 1 (StatusReply (Fulfilled (Some (statusOnly "generating")))); Tick]).
  reflexivity.
Defined.

Lemma view_with_error (s : Session) : error s ≠ "" → view s ≠ ResultPage.
Proof.
  intros He. unfold view. destruct (progressView s); [done|].
  destruct (String.eqb (error s) "") eqn:E; [|done].
  by apply String.eqb_eq in E.
Qed.

(** X3: an error message, once set (also the one of a failed stop request),
    is never cleared, and from then on the result page is never shown,
    whatever arrives later. *)
Theorem error_never_cleared (s : Session) (es : list Event) :
  error s ≠ "" →
  error (run s es) ≠ "" ∧ view (run s es) ≠ ResultPage.
Proof.
  intros He.
  assert (H : error (run s es) ≠ "").
  { revert es s He. apply (run_keeps (λ s, error s ≠ "")).
    intros s e He. destruct (error_step s e) as [->|Hne]; done. }
  split; [done|]. by apply view_with_error.
Qed.

Lemma error_never_cleared_witness :
  error (run (mount None)
           [Settle 0 (ReloadReply (Fulfilled tt));
            ClickStopGeneration; ClickConfirmStop;
            Settle 1 (StopReply (Rejected {| message := Some "Network Error" |}))])
    ≠ ""
  ∧ view
      (run (run (mount None)
              [Settle 0 (ReloadReply (Fulfilled tt));
               ClickStopGeneration; ClickConfirmStop;
               Settle 1 (StopReply (Rejected {| message := Some "Network Error" |}))])
         [Settle 0 (StatusReply (Fulfilled (Some (statusOnly "completed"))));
          Settle 0 (ResultReply (Fulfilled (Some (resultOnly (Some "text")))))])
    ≠ ResultPage
  ∧ result (run (mount None) stopFailedThenCompleted) = Some "text".
Proof.
  split; [discriminate |]. split; [| reflexivity].
  apply (error_never_cleared
           (run (mount None)
              [Settle 0 (ReloadReply (Fulfilled tt));
               ClickStopGeneration; ClickConfirmStop;
               Settle 1 (StopReply (Rejected {| message := Some "Network Error" |}))])
           [Settle 0 (StatusReply (Fulfilled (Some (statusOnly "completed"))));
            Settle 0 (ResultReply (Fulfilled (Some (resultOnly (Some "text")))))]).
  discriminate.
Defined.

Lemma result_step (s : Session) (e : Event) :
  result (step s e) = result s
  ∨ ∃ r, result (step s e) = Some r ∧ r ≠ "".
Proof.
  destruct (core_step s e)
    as [(_ & _ & Er)|[(_ & _ & _ & Er)|[(_ & _ & Er & _)|(_ & _ & r & Er & Hr)]]];
    eauto.
Qed.

(** X4: a stored result is never the empty string, and once a result is
    stored no event takes it away again. *)
Theorem stored_result_stays (s : Session) (es : list Event) :
  reachable s →
  (∀ r, result s = Some r → r ≠ "")
  ∧ (is_Some (result s) → is_Some (result (run s es))).
Proof.
  intros Hs. split.
  - revert s Hs. apply (reachable_ind resultInv); [done|].
    intros s e Inv r Hr.
    destruct (result_step s e) as [E|(x & E & Hx)]; rewrite E in Hr.
    + by apply Inv.
    + by simplify_eq.
  - clear Hs. revert es s. apply (run_keeps (λ s, is_Some (result s))).
    intros s e Hr. destruct (result_step s e) as [->|(x & -> & _)]; eauto.
Qed.

Lemma stored_result_stays_witness :
  is_Some (result (run (mount None) stopFailedThenCompleted))
  ∧ is_Some
      (result
         (run (run (mount None) stopFailedThenCompleted)
            [Settle 0 (ResultReply (Fulfilled (Some (resultOnly None)))); Tick])).
Proof.
  split; [by eexists |].
  apply (stored_result_stays (run (mount None) stopFailedThenCompleted)).
  - apply reachable_run, reachable_mount.
  - by eexists.
Defined.

Lemma simulatedProgress_ge_10 (n : nat) : (10 <= simulatedProgress n)%Q.
Proof.
  unfold simulatedProgress. apply Q.min_glb; [|discriminate].
  rewrite <- (Qplus_0_r 10) at 1. apply Qplus_le_r.
  apply Qmult_le_0_compat; [discriminate|].
  apply Qle_shift_div_l; [reflexivity|].
  rewrite Qmult_0_l. change 0%Q with (inject_Z 0). rewrite <- Zle_Qle. lia.
Qed.

(** X5: in every reachable state the progress shown lies between 0 and
    100. *)
Theorem progress_in_range (s : Session) :
  reachable s → (0 <= progress s)%Q ∧ (progress s <= 100)%Q.
Proof.
  revert s. apply (reachable_ind progressRange).
  - intros locationState. split; discriminate.
  - intros s e [Hlo Hhi]. unfold progressRange.
    destruct (status_progress_step s e)
      as [[_ ->]|[[_ ->]|[[_ ->]|[_ ->]]]]; try done.
    split.
    + apply Qle_trans with (y := 10%Q); [discriminate|].
      apply simulatedProgress_ge_10.
    + apply Qle_trans with (y := 90%Q); [|discriminate].
      apply simulatedProgress_le_90.
Qed.

Lemma progress_in_range_witness :
  (0 <= progress secondPollWaiting)%Q ∧ (progress secondPollWaiting <= 100)%Q.
Proof.
  apply (progress_in_range secondPollWaiting).
  apply reachable_run, reachable_mount.
Defined.

(** X6: when an event ends polling, the page shown next is the error alert
    with a message that is not empty, or the result page with a result
    stored. *)
Theorem page_when_polling_ends (s : Session) (e : Event) :
  pollInterval s = true →
  pollInterval (step s e) = false →
  (view (step s e) = ErrorPage (error (step s e)) ∧ error (step s e) ≠ "")
  ∨ (view (step s e) = ResultPage ∧ is_Some (result (step s e))).
Proof.
  intros Hon Hoff. unfold view, progressView.
  destruct (core_step s e)
    as [(_ & Et & _)|[(_ & _ & Et & _)|[(El & _ & _ & He)|(El & _ & r & Er & _)]]];
    try congruence; rewrite El; simpl.
  - left. destruct (String.eqb (error (step s e)) "") eqn:E; [|done].
    by apply String.eqb_eq in E.
  - destruct (String.eqb (error (step s e)) "") eqn:E; simpl.
    + right. split; [done|]. by eexists.
    + left. split; [done|]. by apply String.eqb_neq in E.
Qed.

Lemma page_when_polling_ends_witness :
  pollInterval firstPollWaiting = true
  ∧ view (step firstPollWaiting
            (Settle 0 (StatusReply (Fulfilled (Some (statusOnly "error"))))))
    = ErrorPage "An error occurred during generation".
Proof.
  split; [reflexivity |].
  destruct (page_when_polling_ends firstPollWaiting
              (Settle 0 (StatusReply (Fulfilled (Some (statusOnly "error")))))
              eq_refl eq_refl) as [[H _]|[H _]].
  - exact H.
  - discriminate H.
Defined.

(** X7: a stop request that fails changes neither the status nor the
    loading flag, the timer, the result, the progress or the poll counter
    and issues no call; it leaves its message, closes the dialog and
    enables the buttons again, so that from the progress page the stop can
    be requested once more. *)
Theorem stop_failure_is_not_fatal (s : Session) (i : nat) (err : JsError) :
  activations s !! i = Some AwaitStop →
  let s' := step s (Settle i (StopReply (Rejected err))) in
  generationStatus s' = generationStatus s
  ∧ loading s' = loading s
  ∧ pollInterval s' = pollInterval s
  ∧ result s' = result s
  ∧ progress s' = progress s
  ∧ pollCount s' = pollCount s
  ∧ calls s' = calls s
  ∧ error s' = "Failed to stop task: " +:+ interpolate (message err)
  ∧ stopConfirmOpen s' = false
  ∧ stopInProgress s' = false
  ∧ (progressView s = true →
     stopCalls (run s' [ClickStopGeneration; ClickConfirmStop])
     = S (stopCalls s)).
Proof.
  intros Hi. cbv zeta.
  assert (H1 : step s (Settle i (StopReply (Rejected err)))
               = afterStopRejected i err s)
    by (simpl; unfold settle; by rewrite Hi).
  rewrite H1. unfold afterStopRejected, finish, suspend. simpl.
  repeat split. intros Hview.
  unfold progressView in *. simpl. rewrite Hview. simpl.
  unfold dialogButtonsEnabled, dialogMounted, dialogShown, progressView. simpl.
  rewrite Hview. simpl.
  unfold stopCalls, handleStopGeneration, spawn, call. simpl.
  rewrite count_occ_app. simpl. lia.
Qed.

Lemma stop_failure_is_not_fatal_witness :
  activations pollThenStop !! 1 = Some AwaitStop
  ∧ generationStatus
      (step pollThenStop
         (Settle 1 (StopReply (Rejected {| message := Some "timeout" |}))))
    = generationStatus pollThenStop
  ∧ error
      (step pollThenStop
         (Settle 1 (StopReply (Rejected {| message := Some "timeout" |}))))
    = "Failed to stop task: timeout".
Proof.
  split; [reflexivity |].
  destruct (stop_failure_is_not_fatal pollThenStop 1
              {| message := Some "timeout" |} eq_refl)
    as (Hst & _ & _ & _ & _ & _ & _ & Herr & _).
  exact (conj Hst Herr).
Defined.

(** What one event does to the log of calls and to the poll counter. *)
Lemma calls_step (s : Session) (e : Event) :
  (calls (step s e) = calls s
   ∨ ∃ c, calls (step s e) = calls s ++ [c]
       ∧ (c = stopTask → e = ClickConfirmStop)
       ∧ (c = reloadTasks → e = Tick ∧ pollCount s = 0)
       ∧ (e = Tick → c = reloadTasks ∨ c = getGenerationStatus))
  ∧ (pollCount (step s e) = pollCount s
     ∨ pollCount (step s e) = S (pollCount s)).
Proof.
  destruct e as [|i r| | | |]; simpl;
    try (split; left; unfold_code; by repeat case_if).
  - destruct (pollInterval s); [|by split; left].
    unfold fetchStatus. simpl.
    destruct (Nat.eqb (pollCount s) 0) eqn:E; simpl; (split; [right | by left]).
    + apply Nat.eqb_eq in E. exists reloadTasks. repeat split; auto.
      discriminate.
    + exists getGenerationStatus. repeat split; auto; discriminate.
  - unfold settle.
    destruct (activations s !! i) as [a|] eqn:Hi; [|by split; left].
    destruct a, r as [[[]|?]|[[sd|]|?]|[[rd|]|?]|[[]|?]];
      try (by split; left);
      try (split; left; unfold_code; unfold usableResult; by repeat case_if);
      try (split; [right | left; unfold_code; by repeat case_if];
           unfold_code; simpl; repeat case_if; simpl;
           eexists; (split; [reflexivity |]); repeat split; discriminate).
    + (* a status payload *)
      destruct (noteStatus_frame sd s)
        as (_ & _ & _ & _ & _ & Ecount & _ & _ & _ & Ecalls).
      unfold afterStatus.
      destruct (String.eqb (sd_status sd) "completed");
        [| destruct (String.eqb (sd_status sd) "error");
           [| destruct (String.eqb (sd_status sd) "stopped")]];
        unfold finish, suspend, call, clearInterval; cbn -[noteStatus];
        rewrite ?Ecount, ?Ecalls; (split; [| by auto]); try (by left).
      right. exists getGenerationResult. repeat split; discriminate.
    + (* the status fetch failed *)
      unfold catchBlock. case_if; unfold_code; simpl; (split; [| by left]);
        [right | by left].
      exists getGenerationResult. repeat split; discriminate.
    + (* the result fetch of a completed job failed *)
      unfold catchBlock. case_if; unfold_code; simpl; (split; [| by left]);
        [right | by left].
      exists getGenerationResult. repeat split; discriminate.
  - split; [|by unfold_code; repeat case_if; left].
    destruct (dialogButtonsEnabled s); [|by left].
    right. exists stopTask. repeat split; discriminate.
Qed.

(** X8: an event issues at most one network call, added at the end of the
    log; [stopTask] is only ever issued by pressing the confirm button,
    [reloadTasks] only by a tick while the poll counter is 0, and a tick
    issues nothing but [reloadTasks] or [getGenerationStatus]. *)
Theorem one_call_per_event (s : Session) (e : Event) :
  calls (step s e) = calls s
  ∨ ∃ c, calls (step s e) = calls s ++ [c]
      ∧ (c = stopTask → e = ClickConfirmStop)
      ∧ (c = reloadTasks → e = Tick ∧ pollCount s = 0)
      ∧ (e = Tick → c = reloadTasks ∨ c = getGenerationStatus).
Proof. exact (proj1 (calls_step s e)). Qed.

(** With a poll counted, a step issues no [reloadTasks] and keeps the
    counter positive. *)
Lemma reloads_step (s : Session) (e : Event) :
  pollCount s ≠ 0 →
  pollCount (step s e) ≠ 0
  ∧ count_occ Call_eq_dec (calls (step s e)) reloadTasks
    = count_occ Call_eq_dec (calls s) reloadTasks.
Proof.
  intros Hne. destruct (calls_step s e) as [Hcalls Hcount]. split.
  - destruct Hcount as [->| ->]; [done | lia].
  - destruct Hcalls as [->|(c & -> & _ & Hreload & _)]; [done|].
    rewrite count_occ_app. simpl.
    destruct (Call_eq_dec c reloadTasks) as [->|]; [|lia].
    by destruct (Hreload eq_refl).
Qed.

(** X9: once a poll has been counted, the poll counter never returns to 0
    and [reloadTasks] is never called again. *)
Theorem reload_only_before_first_counted_poll (s : Session) (es : list Event) :
  pollCount s ≠ 0 →
  pollCount (run s es) ≠ 0
  ∧ count_occ Call_eq_dec (calls (run s es)) reloadTasks
    = count_occ Call_eq_dec (calls s) reloadTasks.
Proof.
  revert s. induction es as [|e es IH]; intros s Hne; [done|].
  simpl. destruct (reloads_step s e Hne) as [Hne' Hsame].
  destruct (IH (step s e) Hne') as [H1 H2]. split; [done|]. congruence.
Qed.

Lemma reload_only_before_first_counted_poll_witness :
  pollCount secondPollWaiting ≠ 0
  ∧ count_occ Call_eq_dec
      (calls
         (run secondPollWaiting
            [Settle 1 (StatusReply (Fulfilled (Some (statusOnly "generating"))));
             Tick; Tick]))
      reloadTasks
    = count_occ Call_eq_dec (calls secondPollWaiting) reloadTasks.
Proof.
  assert (Hne : pollCount secondPollWaiting ≠ 0) by discriminate.
  split; [exact Hne |].
  apply (reload_only_before_first_counted_poll secondPollWaiting
           [Settle 1 (StatusReply (Fulfilled (Some (statusOnly "generating"))));
            Tick; Tick] Hne).
Defined.

Lemma Math_round_nearest (q : Q) :
  (q - (1 # 2) < inject_Z (Math_round q))%Q
  ∧ (inject_Z (Math_round q) <= q + (1 # 2))%Q.
Proof.
  unfold Math_round. split.
  - pose proof (Qlt_floor (q + (1 # 2))) as H.
    rewrite inject_Z_plus in H.
    apply (Qplus_lt_l _ _ 1). ring_simplify.
    eapply Qle_lt_trans; [|exact H]. ring_simplify. apply Qle_refl.
  - apply Qfloor_le.
Qed.

Lemma elapsedTime_afterStatus (s : Session) (i : nat) (sd : StatusData) :
  elapsedTime (afterStatus i (Some sd) s) = elapsedTime (noteStatus sd s).
Proof. unfold_code. by repeat case_if. Qed.

(** X10: a status payload whose [elapsedTime] is absent or 0 leaves the
    elapsed time shown as it was; any other value replaces it by the
    nearest whole number (at most one half away). *)
Theorem elapsed_time_update (s : Session) (i : nat) (sd : StatusData) :
  activations s !! i = Some AwaitStatus →
  let s' := step s (Settle i (StatusReply (Fulfilled (Some sd)))) in
  match sd_elapsedTime sd with
  | None => elapsedTime s' = elapsedTime s
  | Some t =>
      if Qeq_bool t 0 then elapsedTime s' = elapsedTime s
      else elapsedTime s' = Math_round t
           ∧ (t - (1 # 2) < inject_Z (elapsedTime s'))%Q
           ∧ (inject_Z (elapsedTime s') <= t + (1 # 2))%Q
  end.
Proof.
  intros Hi. cbv zeta.
  assert (H1 : step s (Settle i (StatusReply (Fulfilled (Some sd))))
               = afterStatus i (Some sd) s)
    by (simpl; unfold settle; by rewrite Hi).
  rewrite H1, elapsedTime_afterStatus. unfold noteStatus, updateDetails.
  destruct (sd_elapsedTime sd) as [t|]; [|done]. simpl.
  destruct (Qeq_bool t 0); simpl; [done|].
  split; [done|]. apply Math_round_nearest.
Qed.

Lemma elapsed_time_update_witness :
  activations firstPollWaiting !! 0 = Some AwaitStatus
  ∧ elapsedTime
      (step firstPollWaiting
         (Settle 0 (StatusReply (Fulfilled (Some
            {| sd_status := "generating"; sd_elapsedTime := Some (5 # 2);
               sd_model := None; sd_searchEngine := None; sd_prompt := None;
               sd_error := None |})))))
    = 3%Z.
Proof.
  split; [reflexivity |].
  destruct (elapsed_time_update firstPollWaiting 0
              {| sd_status := "generating"; sd_elapsedTime := Some (5 # 2);
                 sd_model := None; sd_searchEngine := None; sd_prompt := None;
                 sd_error := None |} eq_refl) as [H _].
  exact H.
Defined.

Lemma N_of_String_of_N (n : N) : N_of_String (String_of_N n) = Some n.
Proof.
  unfold N_of_String, String_of_N. rewrite NilZero.usu.
  - simpl. by rewrite DecimalN.Unsigned.of_to.
  - destruct n as [|p]; [done|]. apply DecimalPos.Unsigned.to_uint_nonnil.
Qed.

Lemma two_digits (n : nat) :
  n < 60 →
  String.length (padStart 2 "0"%char (String_of_N (N.of_nat n))) = 2
  ∧ N_of_String (padStart 2 "0"%char (String_of_N (N.of_nat n)))
    = Some (N.of_nat n).
Proof.
  intros Hn.
  do 60 (destruct n as [|n]; [by vm_compute |]). lia.
Qed.

(** X11: for a positive whole number of seconds below [2^53] the text shown
    is [· M:SS elapsed]: SS always has two characters, M and SS read back
    as numbers are the quotient and the remainder by 60, so that
    [60 * M + SS] is the elapsed time; for 0 or less nothing is shown. *)
Theorem elapsedLabel_format (t : Z) :
  (t < 2 ^ 53)%Z →
  (if Z.ltb 0 t
   then elapsedLabel t
        = middleDot +:+ " " +:+ elapsedMinutes t +:+ ":" +:+ elapsedSeconds t
            +:+ " elapsed"
        ∧ String.length (elapsedSeconds t) = 2
        ∧ ∃ m sec,
            N_of_String (elapsedMinutes t) = Some m
            ∧ N_of_String (elapsedSeconds t) = Some sec
            ∧ (Z.of_N sec < 60)%Z
            ∧ (60 * Z.of_N m + Z.of_N sec)%Z = t
   else elapsedLabel t = "").
Proof.
  intros _.
  unfold elapsedLabel. destruct (Z.ltb 0 t) eqn:Ht; [|done].
  apply Z.ltb_lt in Ht.
  assert (Hmod : (0 <= t mod 60 < 60)%Z) by (apply Z.mod_pos_bound; lia).
  assert (Hdiv : (0 <= t / 60)%Z) by (apply Z.div_pos; lia).
  assert (Hsec : Z.to_N (t mod 60) = N.of_nat (Z.to_nat (t mod 60))) by lia.
  destruct (two_digits (Z.to_nat (t mod 60))) as [Hlen Hread]; [lia|].
  unfold elapsedSeconds, elapsedMinutes. rewrite Hsec.
  split; [done|]. split; [done|].
  exists (Z.to_N (t / 60)), (N.of_nat (Z.to_nat (t mod 60))).
  split; [apply N_of_String_of_N|]. split; [done|].
  split; [lia|].
  rewrite Z2N.id by done. rewrite nat_N_Z, Z2Nat.id by lia.
  symmetry. apply Z.div_mod. lia.
Qed.

Lemma elapsedLabel_format_witness :
  (125 < 2 ^ 53)%Z
  ∧ elapsedLabel 125 = middleDot +:+ " 2:05 elapsed"
  ∧ String.length (elapsedSeconds 125) = 2.
Proof.
  split; [reflexivity |]. split; [reflexivity |].
  assert (H := elapsedLabel_format 125 eq_refl).
  change (Z.ltb 0 125) with true in H. cbv iota in H.
  exact (proj1 (proj2 H)).
Defined.

(** * Properties of the authentication context, the route guard and the
      login page *)

Section AuthProperties.

Import AuthContext.

Context {User : Type}.
Variable truthyUser : User → bool.
Variable stringify : User → string.

Lemma getItem_setItem (a b : Area) (k key v : string) (st : Stores) :
  getItem a key (setItem b k v st)
  = if decide (a = b ∧ k = key) then Some v else getItem a key st.
Proof.
  unfold getItem, setItem, area.
  destruct (decide (a = b ∧ k = key)) as [[-> ->]|Hne].
  - destruct b; simpl; apply lookup_insert_eq.
  - destruct a, b; simpl; try done;
      (rewrite lookup_insert_ne; [done|]); intros ->; by apply Hne.
Qed.

Lemma getItem_removeItem (a b : Area) (k key : string) (st : Stores) :
  getItem a key (removeItem b k st)
  = if decide (a = b ∧ k = key) then None else getItem a key st.
Proof.
  unfold getItem, removeItem, area.
  destruct (decide (a = b ∧ k = key)) as [[-> ->]|Hne].
  - destruct b; simpl; apply lookup_delete_eq.
  - destruct a, b; simpl; try done;
      (rewrite lookup_delete_ne; [done|]); intros ->; by apply Hne.
Qed.

Lemma primary_secondary (remember : bool) :
  primaryStorage remember ≠ secondaryStorage remember.
Proof. by destruct remember. Qed.

(** What [persistAuth] leaves under a key of an area. *)
Lemma getItem_persistAuth (token : option string) (user : option User)
    (remember : bool) (st : Stores) (a : Area) (key : string) :
  getItem a key (persistAuth truthyUser stringify token user remember st)
  = if decide (key = "authToken" ∨ key = "authUser") then
      if decide (a = secondaryStorage remember) then None
      else if bothGiven truthyUser token user then
        if decide (key = "authToken") then token else stringify <$> user
      else getItem a key st
    else getItem a key st.
Proof.
  unfold persistAuth, bothGiven.
  rewrite !getItem_removeItem.
  destruct token as [tk|], user as [u|]; simpl;
    try destruct (negb (String.eqb tk "") && truthyUser u) eqn:Hboth; simpl;
    rewrite ?getItem_setItem;
    destruct remember, a; simpl;
    repeat (match goal with
            | |- context [decide ?P] => destruct (decide P)
            end);
    try done; try (by rewrite andb_false_r); intuition (subst; congruence).
Qed.

Lemma getStoredItem_persistAuth (tk : string) (u : User)
    (remember : bool) (st : Stores) (key : string) :
  tk ≠ "" → truthyUser u = true → stringify u ≠ "" →
  key = "authToken" ∨ key = "authUser" →
  getStoredItem key (persistAuth truthyUser stringify (Some tk) (Some u) remember st)
  = if decide (key = "authToken") then Some tk else Some (stringify u).
Proof.
  intros Htk Hu Hs Hkey. apply String.eqb_neq in Htk, Hs.
  assert (Hboth : bothGiven truthyUser (Some tk) (Some u) = true)
    by (unfold bothGiven; simpl; by rewrite Htk, Hu).
  unfold getStoredItem. rewrite !getItem_persistAuth, Hboth.
  destruct remember, Hkey as [-> | ->]; simpl;
    repeat (match goal with
            | |- context [decide ?P] => destruct (decide P)
            end);
    simpl; rewrite ?Htk, ?Hs; simpl; try done; intuition congruence.
Qed.

(** X12: after a login whose reply carries a non-empty token and a truthy
    user, the session is authenticated, and a page reload (the provider's
    initial state read from the two storage areas) gives the same token and
    user again, whichever area was chosen and whatever was stored before;
    this assumes that [JSON.parse] reads back what [JSON.stringify] wrote
    and that this text is not empty. *)
Theorem login_survives_reload (parse : string → option (option User))
    (data : LoginData User) (remember : bool)
    (a : Auth User) (tk : string) (u : User) :
  access_token data = Some tk → tk ≠ "" →
  data_user data = Some u → truthyUser u = true →
  stringify u ≠ "" → parse (stringify u) = Some (Some u) →
  let a' := loginFulfilled truthyUser stringify data remember a in
  isAuthenticated a' = true
  ∧ initialAuth parse (stores a') = Some a'.
Proof.
  intros Htoken Htk Huser Hu Hs Hparse. cbv zeta.
  unfold loginFulfilled, isAuthenticated, initialAuth. simpl.
  rewrite Htoken, Huser.
  rewrite !getStoredItem_persistAuth by auto. simpl.
  apply String.eqb_neq in Htk, Hs. rewrite Htk, Hs. simpl.
  by rewrite Hparse.
Qed.

(** X13: whatever [persistAuth] is given, afterwards the area that was not
    chosen holds neither the token nor the user, and no other key of either
    area has changed. *)
Theorem persistAuth_one_area (token : option string) (user : option User)
    (remember : bool) (st : Stores) :
  getItem (secondaryStorage remember) "authToken"
    (persistAuth truthyUser stringify token user remember st) = None
  ∧ getItem (secondaryStorage remember) "authUser"
      (persistAuth truthyUser stringify token user remember st) = None
  ∧ ∀ a key, key ≠ "authToken" → key ≠ "authUser" →
      getItem a key (persistAuth truthyUser stringify token user remember st)
      = getItem a key st.
Proof.
  split; [| split]; [| | intros a key H1 H2]; rewrite getItem_persistAuth;
    repeat (match goal with
            | |- context [decide ?P] => destruct (decide P)
            end);
    try done; intuition congruence.
Qed.

(** X14: when the login reply lacks a non-empty token or a truthy user, the
    provider's token becomes what the reply gave, loading ends, and the
    chosen storage area is left exactly as it was: credentials stored there
    before are not removed. *)
Theorem login_reply_without_credentials (data : LoginData User) (remember : bool)
    (a : Auth User) :
  bothGiven truthyUser (access_token data) (data_user data) = false →
  let a' := loginFulfilled truthyUser stringify data remember a in
  token a' = access_token data
  ∧ authLoading a' = false
  ∧ ∀ key, getItem (primaryStorage remember) key (stores a')
           = getItem (primaryStorage remember) key (stores a).
Proof.
  intros Hboth. cbv zeta. unfold loginFulfilled. simpl.
  repeat split. intros key. rewrite getItem_persistAuth, Hboth.
  pose proof (primary_secondary remember).
  repeat (match goal with
          | |- context [decide ?P] => destruct (decide P)
          end); done.
Qed.

(** X15: after [logout] the session is not authenticated, neither the token
    nor the user can be read from either storage area, no other key has
    changed, and a page reload starts without token and user. *)
Theorem logout_clears (parse : string → option (option User))
    (a : Auth User) :
  let a' := logout a in
  isAuthenticated a' = false
  ∧ user a' = None
  ∧ getStoredItem "authToken" (stores a') = None
  ∧ getStoredItem "authUser" (stores a') = None
  ∧ (∀ ar key, key ≠ "authToken" → key ≠ "authUser" →
       getItem ar key (stores a') = getItem ar key (stores a))
  ∧ initialAuth parse (stores a')
    = Some {| token := None; user := None; authLoading := false;
              stores := stores a' |}.
Proof.
  cbv zeta.
  assert (Hgone : ∀ ar key, key = "authToken" ∨ key = "authUser" →
            getItem ar key (stores (logout a)) = None).
  { intros ar key Hkey. unfold logout. cbn [stores].
    rewrite !getItem_removeItem.
    destruct ar, Hkey as [-> | ->];
      repeat (match goal with
              | |- context [decide ?P] => destruct (decide P)
              end); try done; intuition congruence. }
  assert (Hread : ∀ key, key = "authToken" ∨ key = "authUser" →
            getStoredItem key (stores (logout a)) = None).
  { intros key Hkey. unfold getStoredItem. by rewrite !Hgone. }
  split; [done|]. split; [done|].
  split; [apply Hread; by left|]. split; [apply Hread; by right|].
  split.
  - intros ar key H1 H2. unfold logout. cbn [stores].
    rewrite !getItem_removeItem.
    repeat (match goal with
            | |- context [decide ?P] => destruct (decide P)
            end); try done; intuition congruence.
  - unfold initialAuth. rewrite !Hread by auto. done.
Qed.

(** X17: once logged out, the route guard never renders the protected
    page: it shows the spinner while loading and otherwise sends the visitor
    to the login page with the path they asked for. *)
Theorem guard_after_logout (a : Auth User) (location : PrivateRoute.Location) :
  PrivateRoute.render (isAuthenticated (logout a)) (authLoading (logout a))
    location
  = if authLoading a then PrivateRoute.Spinner
    else PrivateRoute.NavigateToLogin
           (PrivateRoute.pathname location +:+ PrivateRoute.search location
              +:+ PrivateRoute.hash location).
Proof. unfold PrivateRoute.render. simpl. by destruct (authLoading a). Qed.

End AuthProperties.

Lemma login_survives_reload_witness :
  AuthContext.isAuthenticated
    (AuthContext.loginFulfilled (λ _ : string, true) id
       {| AuthContext.access_token := Some "t0k3n";
          AuthContext.data_user := Some "{}" |}
       false
       {| AuthContext.token := None; AuthContext.user := None;
          AuthContext.authLoading := true;
          AuthContext.stores :=
            {| AuthContext.localStorage := <["authToken" := "old"]> ∅;
               AuthContext.sessionStorage := ∅ |} |})
  = true.
Proof.
  apply (login_survives_reload (λ _ : string, true) id (λ s, Some (Some s))
           {| AuthContext.access_token := Some "t0k3n";
              AuthContext.data_user := Some "{}" |}
           false _ "t0k3n" "{}"); done.
Defined.

Lemma login_reply_without_credentials_witness :
  AuthContext.getItem AuthContext.LocalStorage "authToken"
    (AuthContext.stores
       (AuthContext.loginFulfilled (λ _ : string, true) id
          {| AuthContext.access_token := None;
             AuthContext.data_user := Some "{}" |}
          true
          {| AuthContext.token := Some "old"; AuthContext.user := Some "{}";
             AuthContext.authLoading := true;
             AuthContext.stores :=
               {| AuthContext.localStorage := <["authToken" := "old"]> ∅;
                  AuthContext.sessionStorage := ∅ |} |}))
  = Some "old".
Proof.
  destruct (login_reply_without_credentials (λ _ : string, true) id
              {| AuthContext.access_token := None;
                 AuthContext.data_user := Some "{}" |}
              true
              {| AuthContext.token := Some "old"; AuthContext.user := Some "{}";
                 AuthContext.authLoading := true;
                 AuthContext.stores :=
                   {| AuthContext.localStorage := <["authToken" := "old"]> ∅;
                      AuthContext.sessionStorage := ∅ |} |}
              eq_refl) as (_ & _ & H).
  exact (H "authToken").
Defined.

Lemma startsWithSlash_app (p q : string) :
  LoginPage.startsWithSlash p = true →
  LoginPage.startsWithSlash (p +:+ q) = true.
Proof.
  unfold LoginPage.startsWithSlash. destruct p as [|c p]; [done|].
  change (String c p +:+ q) with (String c (p +:+ q)).
  cbn [String.prefix].
  destruct (Ascii.ascii_dec "/" c); [|done].
  intros _. by destruct (p +:+ q).
Qed.

(** X18: the path the login page navigates to always starts with '/': a
    requested path that is a string starting with '/' is returned as it is,
    and any other request, or none, gives '/'. *)
Theorem redirectPath_starts_with_slash (requested : option string) :
  LoginPage.startsWithSlash (LoginPage.redirectPath requested) = true
  ∧ (∀ p, LoginPage.startsWithSlash p = true →
       LoginPage.redirectPath (Some p) = p)
  ∧ (∀ p, LoginPage.startsWithSlash p = false →
       LoginPage.redirectPath (Some p) = "/")
  ∧ LoginPage.redirectPath None = "/".
Proof.
  split; [| split; [| split]].
  - unfold LoginPage.redirectPath. destruct requested as [p|]; [|done].
    by destruct (LoginPage.startsWithSlash p) eqn:E.
  - intros p Hp. unfold LoginPage.redirectPath. by rewrite Hp.
  - intros p Hp. unfold LoginPage.redirectPath. by rewrite Hp.
  - done.
Qed.

(** X19: a visitor who is not authenticated is sent to the login page with
    the path, query and fragment of the page asked for, and, the path name
    starting with '/', the login page navigates back to exactly that
    address. *)
Theorem guard_then_login_returns (location : PrivateRoute.Location) :
  LoginPage.startsWithSlash (PrivateRoute.pathname location) = true →
  ∃ from,
    PrivateRoute.render false false location = PrivateRoute.NavigateToLogin from
    ∧ LoginPage.redirectPath (Some from)
      = PrivateRoute.pathname location +:+ PrivateRoute.search location
          +:+ PrivateRoute.hash location.
Proof.
  intros Hslash. eexists. split; [reflexivity|].
  unfold LoginPage.redirectPath. by rewrite startsWithSlash_app.
Qed.

Lemma guard_then_login_returns_witness :
  ∃ from,
    PrivateRoute.render false false
      {| PrivateRoute.pathname := "/results/42"; PrivateRoute.search := "?tab=1";
         PrivateRoute.hash := "" |}
    = PrivateRoute.NavigateToLogin from
    ∧ LoginPage.redirectPath (Some from) = "/results/42?tab=1".
Proof.
  apply (guard_then_login_returns
           {| PrivateRoute.pathname := "/results/42";
              PrivateRoute.search := "?tab=1"; PrivateRoute.hash := "" |}).
  reflexivity.
Defined.

(** X20: submitting the form calls [login] exactly when the email and the
    password field are both non-empty, with the normalized email, the
    password and the remember choice, and clears the error shown; with an
    empty field nothing is called and the request to fill in both fields is
    shown.  A rejected login always leaves a message that is not empty. *)
Theorem handleSubmit_validates (normalize : string → string)
    (f : LoginPage.Form) (serverError : option string) :
  match snd (LoginPage.handleSubmit normalize f) with
  | None =>
      (LoginPage.email f = "" ∨ LoginPage.password f = "")
      ∧ LoginPage.error (fst (LoginPage.handleSubmit normalize f))
        = "Please enter both email and password to continue."
  | Some (e, p, r) =>
      LoginPage.email f ≠ "" ∧ LoginPage.password f ≠ ""
      ∧ e = normalize (LoginPage.email f)
      ∧ p = LoginPage.password f
      ∧ r = LoginPage.rememberMe f
      ∧ LoginPage.error (fst (LoginPage.handleSubmit normalize f)) = ""
  end
  ∧ LoginPage.error (LoginPage.loginFailed serverError f) ≠ "".
Proof.
  split.
  - unfold LoginPage.handleSubmit. simpl.
    destruct (String.eqb_spec (LoginPage.email f) "") as [E1|E1];
      destruct (String.eqb_spec (LoginPage.password f) "") as [E2|E2]; simpl;
      repeat split; auto.
  - unfold LoginPage.loginFailed. simpl. by apply orElse_nonempty.
Qed.
